(** * Entrolytics Astro SDK: option resolution, script tag rendering and
    the client-side event dispatcher.

  The development embeds two source files.

  - [src/index.ts]: [generateScriptTag] and the [entrolytics] integration
    factory (module [Index]).
  - the client module: [waitForTracker], [trackRevenue], [trackVital],
    [trackFormEvent] and [createFormTracker] (module [Client]).

  JavaScript values are modelled as the TypeScript declarations type them:
  an optional property [x?: T] is an [option T], a [string] is a Rocq
  [string], a [Map<string, number>] is a [gmap string Z], an object used
  as a record of event data is a [gmap string _].  Truthiness is written
  out where the source relies on it ([||], [!x], [x ? a : b]). *)

From Stdlib Require Import ZArith Ascii String List.
From Stdlib Require Import Floats.PrimFloat.
From stdpp Require Import base option gmap strings list fin_maps.
Import ListNotations.

Local Open Scope string_scope.
Set Warnings "-register-all,-inexact-float,-clear-no-such-hyp".

(** ** JavaScript conventions shared by both files *)

Module Js.

(** The double quote character, used inside the rendered markup. *)
Definition dq : string := String (ascii_of_nat 34) EmptyString.

(** The line feed of a template literal that spans several lines. *)
Definition nl : string := String (ascii_of_nat 10) EmptyString.

(** Truthiness of a value of type [string | undefined]. *)
Definition truthy_string (v : option string) : bool :=
  match v with
  | Some s => negb (String.eqb s EmptyString)
  | None => false
  end.

(** Truthiness of a value of type [boolean | undefined]. *)
Definition truthy_bool (v : option bool) : bool :=
  match v with
  | Some b => b
  | None => false
  end.

(** Truthiness of a value of type [number | null | undefined], for the
    integral numbers that [Date.now()] returns. *)
Definition truthy_number (v : option Z) : bool :=
  match v with
  | Some n => negb (Z.eqb n 0)
  | None => false
  end.

(** [a || b] on [string | undefined] operands. *)
Definition or_string (a b : option string) : option string :=
  if truthy_string a then a else b.

(** A destructuring default [{ x = d } = o]: the default replaces
    [undefined] only. *)
Definition with_default {A} (d : A) (v : option A) : A :=
  match v with
  | Some x => x
  | None => d
  end.

(** [s.replace(/\/$/, '')]: the pattern matches a slash at the very end of
    the input, and [replace] with a non-global pattern rewrites that one
    match. *)
Fixpoint strip_trailing_slash (s : string) : string :=
  match s with
  | EmptyString => EmptyString
  | String c rest =>
      match rest with
      | EmptyString => if Ascii.eqb c "/"%char then EmptyString else s
      | String _ _ => String c (strip_trailing_slash rest)
      end
  end.

(** [xs.join(sep)] on an array of strings. *)
Definition join (sep : string) (xs : list string) : string :=
  String.concat sep xs.

(** [s] ends with a slash. *)
Fixpoint ends_with_slash (s : string) : bool :=
  match s with
  | EmptyString => false
  | String c rest =>
      match rest with
      | EmptyString => Ascii.eqb c "/"%char
      | String _ _ => ends_with_slash rest
      end
  end.

(** How a call ends: a returned value or a thrown [Error] with its message. *)
Inductive Completion (A : Type) :=
| Return (value : A)
| Throw (message : string).
Arguments Return {A} value.
Arguments Throw {A} message.

End Js.

(** ** [src/index.ts] *)

Module Index.
Import Js.

Definition DEFAULT_HOST : string := "https://entrolytics.click".

(** [interface EntrolyticsOptions]. *)
Record EntrolyticsOptions := mkOptions {
  websiteId : string;
  host : option string;
  autoTrack : option bool;
  trackOutboundLinks : option bool;
  trackFileDownloads : option bool;
  respectDnt : option bool;
  domains : option (list string);
  cacheScript : option bool;
  useEdgeRuntime : option bool;
  tag : option string;
  excludeSearch : option bool;
  excludeHash : option bool
}.

(** [Partial<EntrolyticsOptions>]: the identifier becomes optional too. *)
Record PartialOptions := mkPartial {
  p_websiteId : option string;
  p_host : option string;
  p_autoTrack : option bool;
  p_trackOutboundLinks : option bool;
  p_trackFileDownloads : option bool;
  p_respectDnt : option bool;
  p_domains : option (list string);
  p_cacheScript : option bool;
  p_useEdgeRuntime : option bool;
  p_tag : option string;
  p_excludeSearch : option bool;
  p_excludeHash : option bool
}.

(** The argument default [options = {}]. *)
Definition empty_options : PartialOptions :=
  mkPartial None None None None None None None None None None None None.

(** [const scriptPath = useEdgeRuntime ? '/script-edge.js' : '/script.js'],
    after the destructuring default [useEdgeRuntime = true]. *)
Definition scriptPath (o : EntrolyticsOptions) : string :=
  if with_default true (useEdgeRuntime o) then "/script-edge.js" else "/script.js".

(** [const scriptUrl = `${host.replace(/\/$/, '')}${scriptPath}`]. *)
Definition scriptUrl (o : EntrolyticsOptions) : string :=
  strip_trailing_slash (with_default DEFAULT_HOST (host o)) +:+ scriptPath o.

(** The initial value of the [attributes] array. *)
Definition base_attributes (o : EntrolyticsOptions) : list string :=
  [ "src=" +:+ dq +:+ scriptUrl o +:+ dq;
    "data-website-id=" +:+ dq +:+ websiteId o +:+ dq;
    "defer" ].

Definition attr_auto_track : string := "data-auto-track=" +:+ dq +:+ "false" +:+ dq.
Definition attr_outbound : string := "data-track-outbound-links=" +:+ dq +:+ "true" +:+ dq.
Definition attr_downloads : string := "data-track-file-downloads=" +:+ dq +:+ "true" +:+ dq.
Definition attr_dnt : string := "data-do-not-track=" +:+ dq +:+ "true" +:+ dq.
Definition attr_domains (ds : list string) : string :=
  "data-domains=" +:+ dq +:+ join "," ds +:+ dq.
Definition attr_tag (t : string) : string := "data-tag=" +:+ dq +:+ t +:+ dq.
Definition attr_exclude_search : string := "data-exclude-search=" +:+ dq +:+ "true" +:+ dq.
Definition attr_exclude_hash : string := "data-exclude-hash=" +:+ dq +:+ "true" +:+ dq.

(** [if (c) { attributes.push(a) }]. *)
Definition push_if (c : bool) (a : string) (attributes : list string) : list string :=
  if c then (attributes ++ [a])%list else attributes.

(** [domains && domains.length > 0]. *)
Definition domains_present (ds : option (list string)) : bool :=
  match ds with
  | Some (_ :: _) => true
  | _ => false
  end.

(** The [attributes] array once all the conditional pushes have run, in
    the order of the source. *)
Definition attributes (o : EntrolyticsOptions) : list string :=
  let a0 := base_attributes o in
  let a1 := push_if (negb (with_default true (autoTrack o))) attr_auto_track a0 in
  let a2 := push_if (with_default true (trackOutboundLinks o)) attr_outbound a1 in
  let a3 := push_if (with_default false (trackFileDownloads o)) attr_downloads a2 in
  let a4 := push_if (with_default false (respectDnt o)) attr_dnt a3 in
  let a5 := push_if (domains_present (domains o))
              (attr_domains (with_default [] (domains o))) a4 in
  let a6 := push_if (truthy_string (tag o))
              (attr_tag (with_default EmptyString (tag o))) a5 in
  let a7 := push_if (with_default false (excludeSearch o)) attr_exclude_search a6 in
  push_if (with_default false (excludeHash o)) attr_exclude_hash a7.

(** [function generateScriptTag(options: EntrolyticsOptions): string]. *)
Definition generateScriptTag (o : EntrolyticsOptions) : string :=
  "<script " +:+ join " " (attributes o) +:+ "></script>".

(** ** The [entrolytics] integration factory *)

(** [import.meta.env] as far as the factory reads it. *)
Record ImportMetaEnv := mkEnv {
  PUBLIC_ENTROLYTICS_WEBSITE_ID : option string;
  VITE_ENTROLYTICS_WEBSITE_ID : option string;
  PUBLIC_ENTROLYTICS_HOST : option string;
  VITE_ENTROLYTICS_HOST : option string;
  DEV : option bool
}.

(** [(import.meta as any).env || {}]. *)
Definition env_or_empty (e : option ImportMetaEnv) : ImportMetaEnv :=
  match e with
  | Some env => env
  | None => mkEnv None None None None None
  end.

(** Calls on [console] made by the factory. *)
Inductive ConsoleCall :=
| console_warn (message : string).

(** One call [injectScript(stage, content)]. *)
Record InjectScript := mkInject {
  stage : string;
  content : string
}.

(** The integration object: its name and, for the ['astro:config:setup']
    hook, the [injectScript] calls that the hook makes, in order. *)
Record AstroIntegration := mkIntegration {
  name : string;
  astro_config_setup : list InjectScript
}.

Definition MISSING_WARNING : string :=
  "[@entrolytics/astro] Missing websiteId. Add PUBLIC_ENTROLYTICS_WEBSITE_ID to your .env file.".

Definition REQUIRED_ERROR : string := "[@entrolytics/astro] websiteId is required".

(** The template literal [configScript]. *)
Definition configScript (websiteId host : string) : string :=
  nl +:+ "          <script>" +:+
  nl +:+ "            window.__entrolytics_config = {" +:+
  nl +:+ "              websiteId: " +:+ dq +:+ websiteId +:+ dq +:+ "," +:+
  nl +:+ "              host: " +:+ dq +:+ strip_trailing_slash host +:+ dq +:+
  nl +:+ "            };" +:+
  nl +:+ "          </script>" +:+
  nl +:+ "        ".

(** The template literal injected at stage ['page']. *)
Definition pageScript : string :=
  nl +:+ "          document.addEventListener('astro:page-load', () => {" +:+
  nl +:+ "            if (typeof window.entrolytics !== 'undefined' && window.entrolytics.track) {" +:+
  nl +:+ "              // The script handles this automatically with data-auto-track" +:+
  nl +:+ "              // This is a fallback for View Transitions" +:+
  nl +:+ "            }" +:+
  nl +:+ "          });" +:+
  nl +:+ "        ".

(** The body of the ['astro:config:setup'] hook. *)
Definition config_setup_hook (finalOptions : EntrolyticsOptions)
    (websiteId host : string) : list InjectScript :=
  let scriptTag := generateScriptTag finalOptions in
  [ mkInject "head-inline" (configScript websiteId host);
    mkInject "head-inline" scriptTag;
    mkInject "page" pageScript ].

(** [options.websiteId || env.PUBLIC_ENTROLYTICS_WEBSITE_ID ||
     env.VITE_ENTROLYTICS_WEBSITE_ID]. *)
Definition resolve_websiteId (options : PartialOptions) (env : ImportMetaEnv)
    : option string :=
  or_string (or_string (p_websiteId options) (PUBLIC_ENTROLYTICS_WEBSITE_ID env))
            (VITE_ENTROLYTICS_WEBSITE_ID env).

(** [options.host || env.PUBLIC_ENTROLYTICS_HOST || env.VITE_ENTROLYTICS_HOST
     || DEFAULT_HOST]. *)
Definition resolve_host (options : PartialOptions) (env : ImportMetaEnv) : string :=
  let h := or_string (or_string (p_host options) (PUBLIC_ENTROLYTICS_HOST env))
                     (VITE_ENTROLYTICS_HOST env) in
  if truthy_string h then with_default DEFAULT_HOST h else DEFAULT_HOST.

(** The object literal [finalOptions]. *)
Definition finalOptions (options : PartialOptions) (websiteId host : string)
    : EntrolyticsOptions :=
  {| websiteId := websiteId;
     host := Some host;
     autoTrack := p_autoTrack options;
     trackOutboundLinks := p_trackOutboundLinks options;
     trackFileDownloads := p_trackFileDownloads options;
     respectDnt := p_respectDnt options;
     domains := p_domains options;
     cacheScript := p_cacheScript options;
     useEdgeRuntime := p_useEdgeRuntime options;
     tag := p_tag options;
     excludeSearch := p_excludeSearch options;
     excludeHash := p_excludeHash options |}.

(** [export default function entrolytics(options = {})]: the console calls
    it makes, and how it ends. *)
Definition entrolytics (options : PartialOptions) (import_meta_env : option ImportMetaEnv)
    : list ConsoleCall * Completion AstroIntegration :=
  let env := env_or_empty import_meta_env in
  let websiteId := resolve_websiteId options env in
  let host := resolve_host options env in
  if negb (truthy_string websiteId) then
    ((if truthy_bool (DEV env) then [console_warn MISSING_WARNING] else []),
     Throw REQUIRED_ERROR)
  else
    let w := with_default EmptyString websiteId in
    ([], Return (mkIntegration "@entrolytics/astro"
                   (config_setup_hook (finalOptions options w host) w host))).

End Index.

(** ** The client module *)

Module Client.
Import Js.

(** [interface EventData]: a value is a string, a number, a boolean, a
    nested record, or an array of strings, numbers or records. *)
Inductive EventValue :=
| VString (s : string)
| VNumber (n : float)
| VBoolean (b : bool)
| VObject (o : gmap string EventValue)
| VStrings (l : list string)
| VNumbers (l : list float)
| VObjects (l : list (gmap string EventValue)).

(** A value of type [Record<string, unknown>], as far as [JSON.stringify]
    tells such values apart: a record that it writes, or one that it throws
    on (a BigInt inside, a cycle, a [toJSON] that throws), with the error. *)
Inductive Attribution :=
| Writable (o : gmap string EventValue)
| Unwritable (err : string).

Inductive WebVitalMetric := LCP | INP | CLS | TTFB | FCP.
Inductive WebVitalRating := good | needs_improvement | poor.
Inductive NavigationType :=
| navigate | reload | back_forward | back_forward_cache | prerender | restore.

(** [interface WebVitalData]. *)
Record WebVitalData := mkVital {
  metric : WebVitalMetric;
  value : float;
  rating : WebVitalRating;
  delta : option float;
  id : option string;
  navigationType : option NavigationType;
  attribution : option Attribution
}.

Inductive FormEventType :=
| start | field_focus | field_blur | field_error | submit | abandon.

(** [interface FormEventData]. *)
Record FormEventData := mkFormEvent {
  eventType : FormEventType;
  formId : string;
  formName : option string;
  urlPath : option string;
  fieldName : option string;
  fieldType : option string;
  fieldIndex : option Z;
  timeOnField : option Z;
  timeSinceStart : option Z;
  errorMessage : option string;
  success : option bool
}.

(** [window.__entrolytics_config]. *)
Record EntrolyticsConfig := mkConfig {
  cfg_websiteId : string;
  cfg_host : string
}.

(** The parts of [window] that the module reads, apart from the tracker. *)
Record Window := mkWindow {
  entrolytics_config : option EntrolyticsConfig;
  location_href : string;
  location_pathname : string
}.

(** The object literal [payload] of [trackVital]. *)
Record VitalPayload := mkVitalPayload {
  vp_website : string;
  vp_metric : WebVitalMetric;
  vp_value : float;
  vp_rating : WebVitalRating;
  vp_delta : option float;
  vp_id : option string;
  vp_navigationType : option NavigationType;
  vp_attribution : option Attribution;
  vp_url : string;
  vp_path : string
}.

(** The object literal [payload] of [trackFormEvent]. *)
Record FormPayload := mkFormPayload {
  fp_website : string;
  fp_eventType : FormEventType;
  fp_formId : string;
  fp_formName : option string;
  fp_urlPath : string;
  fp_fieldName : option string;
  fp_fieldType : option string;
  fp_fieldIndex : option Z;
  fp_timeOnField : option Z;
  fp_timeSinceStart : option Z;
  fp_errorMessage : option string;
  fp_success : option bool
}.

(** The value handed to [JSON.stringify] for the request body. *)
Inductive Body :=
| VitalsBody (payload : VitalPayload)
| FormsBody (payload : FormPayload).

(** The second argument of [fetch]. *)
Record RequestInit := mkInit {
  method : string;
  content_type : string;
  body : Body;
  keepalive : bool
}.

(** The first argument of the tracker's [track]: a name or an object. *)
Inductive TrackArg :=
| ArgName (eventName : string)
| ArgObject (payload : gmap string EventValue).

(** What the module does to the outside world. *)
Inductive Effect :=
| ConsoleWarn (message : string)
| ConsoleError (message err : string)
| Fetch (url : string) (init : RequestInit)
| SetTimeout (delay : Z)
| TrackerTrack (arg : TrackArg) (eventData : option (gmap string EventValue))
| TrackerIdentify (data : gmap string EventValue).

(** *** [waitForTracker] *)

(** [tryExecute]: [tracker k] tells whether [window.entrolytics] is there
    when [tryExecute] runs for the [k]-th time; the callback sees the same
    instant.  Each miss schedules the next run with [setTimeout(_, 100)].
    The result is [None] while the polling has not ended within [fuel]
    runs. *)
Fixpoint tryExecute (fuel : nat) (tracker : nat -> bool) (k : nat)
    (callback : bool -> list Effect) : option (list Effect) :=
  match fuel with
  | O => None
  | S fuel' =>
      if tracker k then Some (callback (tracker k))
      else
        match tryExecute fuel' tracker (S k) callback with
        | Some es => Some (SetTimeout 100 :: es)
        | None => None
        end
  end.

(** [function waitForTracker(callback)]. *)
Definition waitForTracker (fuel : nat) (window : option Window) (tracker : nat -> bool)
    (callback : bool -> list Effect) : option (list Effect) :=
  match window with
  | None => Some []
  | Some _ => tryExecute fuel tracker 0 callback
  end.

(** [window.entrolytics?.track(a, d)]. *)
Definition optional_track (present : bool) (a : TrackArg)
    (d : option (gmap string EventValue)) : list Effect :=
  if present then [TrackerTrack a d] else [].

(** [{ ...data }] for [data : EventData | undefined]. *)
Definition spread (data : option (gmap string EventValue)) : gmap string EventValue :=
  with_default ∅ data.

(** [export function trackEvent(eventName, eventData?)]. *)
Definition trackEvent (fuel : nat) (window : option Window) (tracker : nat -> bool)
    (eventName : string) (eventData : option (gmap string EventValue))
    : option (list Effect) :=
  waitForTracker fuel window tracker
    (fun present => optional_track present (ArgName eventName) eventData).

(** The object literal [{ ...data, revenue, currency }]. *)
Definition revenue_eventData (revenue : float) (currency : string)
    (data : option (gmap string EventValue)) : gmap string EventValue :=
  <["currency" := VString currency]> (<["revenue" := VNumber revenue]> (spread data)).

(** [export function trackRevenue(eventName, revenue, currency = 'USD', data?)]. *)
Definition trackRevenue (fuel : nat) (window : option Window) (tracker : nat -> bool)
    (eventName : string) (revenue : float) (currency : option string)
    (data : option (gmap string EventValue)) : option (list Effect) :=
  let currency := with_default "USD" currency in
  waitForTracker fuel window tracker
    (fun present =>
       let eventData := revenue_eventData revenue currency data in
       optional_track present (ArgName eventName) (Some eventData)).


(** *** [trackVital] and [trackFormEvent] *)

(** [function getConfig()]. *)
Definition getConfig (window : option Window) : option EntrolyticsConfig :=
  match window with
  | None => None
  | Some w => entrolytics_config w
  end.

Definition CONFIG_NOT_FOUND : string :=
  "[Entrolytics] Config not found. Ensure integration is properly configured.".

(** [try { body } catch (err) { handler }]. *)
Definition try_catch {A} (body : list Effect * Completion A)
    (handler : string -> list Effect * Completion A) : list Effect * Completion A :=
  match body with
  | (es, Return v) => (es, Return v)
  | (es, Throw err) => let '(es', c) := handler err in ((es ++ es')%list, c)
  end.

(** [await fetch(url, init)]: the request is made, and [network] tells
    whether the promise resolves or rejects. *)
Definition await_fetch (network : string -> Completion unit) (url : string)
    (init : RequestInit) : list Effect * Completion unit :=
  ([Fetch url init], network url).

Definition post (b : Body) : RequestInit :=
  {| method := "POST"; content_type := "application/json"; body := b; keepalive := true |}.

(** [JSON.stringify(payload)]: the payload written, or the error thrown.
    All fields are strings, numbers, booleans or absent, which are always
    written, but for the [attribution] of a vital. *)
Definition JSON_stringify (b : Body) : Completion Body :=
  match b with
  | VitalsBody p =>
      match vp_attribution p with
      | Some (Unwritable err) => Throw err
      | _ => Return b
      end
  | FormsBody _ => Return b
  end.

(** [await fetch(url, { method: 'POST', headers, body: JSON.stringify(payload),
    keepalive: true })]: the body is written before [fetch] is called, so an
    error thrown there leaves no request. *)
Definition await_post (network : string -> Completion unit) (url : string)
    (payload : Body) : list Effect * Completion unit :=
  match JSON_stringify payload with
  | Return written => await_fetch network url (post written)
  | Throw err => ([], Throw err)
  end.

(** [export async function trackVital(data)]: its effects, and how the
    returned promise settles. *)
Definition trackVital (window : option Window) (network : string -> Completion unit)
    (data : WebVitalData) : list Effect * Completion unit :=
  match window with
  | None => ([], Return tt)
  | Some w =>
      match getConfig window with
      | None => ([ConsoleWarn CONFIG_NOT_FOUND], Return tt)
      | Some config =>
          let payload :=
            {| vp_website := cfg_websiteId config;
               vp_metric := metric data;
               vp_value := value data;
               vp_rating := rating data;
               vp_delta := delta data;
               vp_id := id data;
               vp_navigationType := navigationType data;
               vp_attribution := attribution data;
               vp_url := location_href w;
               vp_path := location_pathname w |} in
          try_catch
            (await_post network (cfg_host config +:+ "/api/collect/vitals")
               (VitalsBody payload))
            (fun err =>
               ([ConsoleError "[Entrolytics] Failed to track vital:" err], Return tt))
      end
  end.

(** [export async function trackFormEvent(data)]. *)
Definition trackFormEvent (window : option Window) (network : string -> Completion unit)
    (data : FormEventData) : list Effect * Completion unit :=
  match window with
  | None => ([], Return tt)
  | Some w =>
      match getConfig window with
      | None => ([ConsoleWarn CONFIG_NOT_FOUND], Return tt)
      | Some config =>
          let payload :=
            {| fp_website := cfg_websiteId config;
               fp_eventType := eventType data;
               fp_formId := formId data;
               fp_formName := formName data;
               fp_urlPath :=
                 (if truthy_string (urlPath data)
                  then with_default EmptyString (urlPath data)
                  else location_pathname w);
               fp_fieldName := fieldName data;
               fp_fieldType := fieldType data;
               fp_fieldIndex := fieldIndex data;
               fp_timeOnField := timeOnField data;
               fp_timeSinceStart := timeSinceStart data;
               fp_errorMessage := errorMessage data;
               fp_success := success data |} in
          try_catch
            (await_post network (cfg_host config +:+ "/api/collect/forms")
               (FormsBody payload))
            (fun err =>
               ([ConsoleError "[Entrolytics] Failed to track form event:" err], Return tt))
      end
  end.

(** *** [createFormTracker] *)

(** The variables captured by the closures of one tracker. *)
Record Session := mkSession {
  startTime : option Z;
  fieldStartTimes : gmap string Z
}.

(** [let startTime = null; const fieldStartTimes = new Map()]. *)
Definition new_session : Session := mkSession None ∅.

(** A tracker at work: its session, how many times [Date.now()] has been
    read, and the arguments of the calls of [trackFormEvent] so far, oldest
    first.  What such a call does in the browser is [trackFormEvent]. *)
Record Runtime := mkRuntime {
  session : Session;
  ticks : nat;
  emitted : list FormEventData
}.

Definition new_runtime : Runtime := mkRuntime new_session 0 [].

(** Methods are state transformers over [Runtime]. *)
Definition M (A : Type) : Type := Runtime -> A * Runtime.

Definition ret {A} (a : A) : M A := fun r => (a, r).

Definition bind {A B} (m : M A) (f : A -> M B) : M B :=
  fun r => let '(a, r') := m r in f a r'.

Notation "x <- m ;; k" := (bind m (fun x => k))
  (at level 100, m at next level, right associativity).
Notation "m ;;; k" := (bind m (fun _ => k))
  (at level 100, right associativity).

Definition get_startTime : M (option Z) := fun r => (startTime (session r), r).

Definition set_startTime (v : option Z) : M unit :=
  fun r => (tt, mkRuntime (mkSession v (fieldStartTimes (session r))) (ticks r) (emitted r)).

(** [fieldStartTimes.get(fieldName)]. *)
Definition fieldStartTimes_get (fieldName : string) : M (option Z) :=
  fun r => (fieldStartTimes (session r) !! fieldName, r).

(** [fieldStartTimes.set(fieldName, t)]. *)
Definition fieldStartTimes_set (fieldName : string) (t : Z) : M unit :=
  fun r => (tt, mkRuntime (mkSession (startTime (session r))
                             (<[fieldName := t]> (fieldStartTimes (session r))))
                  (ticks r) (emitted r)).

(** [fieldStartTimes.clear()]. *)
Definition fieldStartTimes_clear : M unit :=
  fun r => (tt, mkRuntime (mkSession (startTime (session r)) ∅) (ticks r) (emitted r)).

(** The call [trackFormEvent(data)] made by a method. *)
Definition call_trackFormEvent (data : FormEventData) : M unit :=
  fun r => (tt, mkRuntime (session r) (ticks r) (emitted r ++ [data])%list).

Section Tracker.

(** [clock n] is what the [n]-th reading of [Date.now()] returns. *)
Variable clock : nat -> Z.

(** The arguments of [createFormTracker(formId, formName?)]. *)
Variable form_id : string.
Variable form_name : option string.

Definition Date_now : M Z :=
  fun r => (clock (ticks r), mkRuntime (session r) (S (ticks r)) (emitted r)).

(** [v ? Date.now() - v : undefined]. *)
Definition elapsed_since (v : option Z) : M (option Z) :=
  if truthy_number v
  then (now <- Date_now ;; ret (Some (now - with_default 0 v)%Z))
  else ret None.

Definition trackStart : M unit :=
  now <- Date_now ;;
  set_startTime (Some now) ;;;
  call_trackFormEvent
    (mkFormEvent start form_id form_name None None None None None None None None).

Definition trackFieldFocus (fieldName : string) (fieldType : option string)
    (fieldIndex : option Z) : M unit :=
  st <- get_startTime ;;
  (if negb (truthy_number st)
   then (now <- Date_now ;;
         set_startTime (Some now) ;;;
         call_trackFormEvent
           (mkFormEvent start form_id form_name None None None None None None None None))
   else ret tt) ;;;
  now <- Date_now ;;
  fieldStartTimes_set fieldName now ;;;
  now' <- Date_now ;;
  st' <- get_startTime ;;
  call_trackFormEvent
    (mkFormEvent field_focus form_id form_name None (Some fieldName) fieldType fieldIndex
       None (Some (now' - with_default 0 st')%Z) None None).

Definition trackFieldBlur (fieldName : string) (fieldType : option string)
    (fieldIndex : option Z) : M unit :=
  fieldStart <- fieldStartTimes_get fieldName ;;
  onField <- elapsed_since fieldStart ;;
  st <- get_startTime ;;
  sinceStart <- elapsed_since st ;;
  call_trackFormEvent
    (mkFormEvent field_blur form_id form_name None (Some fieldName) fieldType fieldIndex
       onField sinceStart None None).

Definition trackFieldError (fieldName errorMessage : string) (fieldType : option string)
    (fieldIndex : option Z) : M unit :=
  st <- get_startTime ;;
  sinceStart <- elapsed_since st ;;
  call_trackFormEvent
    (mkFormEvent field_error form_id form_name None (Some fieldName) fieldType fieldIndex
       None sinceStart (Some errorMessage) None).

Definition trackSubmit (success : bool) : M unit :=
  st <- get_startTime ;;
  sinceStart <- elapsed_since st ;;
  call_trackFormEvent
    (mkFormEvent submit form_id form_name None None None None None sinceStart None
       (Some success)) ;;;
  set_startTime None ;;;
  fieldStartTimes_clear.

Definition trackAbandon : M unit :=
  st <- get_startTime ;;
  sinceStart <- elapsed_since st ;;
  call_trackFormEvent
    (mkFormEvent abandon form_id form_name None None None None None sinceStart None None).

(** One use of the object returned by [createFormTracker]. *)
Inductive MethodCall :=
| call_trackStart
| call_trackFieldFocus (fieldName : string) (fieldType : option string) (fieldIndex : option Z)
| call_trackFieldBlur (fieldName : string) (fieldType : option string) (fieldIndex : option Z)
| call_trackFieldError (fieldName errorMessage : string) (fieldType : option string)
    (fieldIndex : option Z)
| call_trackSubmit (success : bool)
| call_trackAbandon.

Definition invoke (c : MethodCall) : M unit :=
  match c with
  | call_trackStart => trackStart
  | call_trackFieldFocus f t i => trackFieldFocus f t i
  | call_trackFieldBlur f t i => trackFieldBlur f t i
  | call_trackFieldError f e t i => trackFieldError f e t i
  | call_trackSubmit s => trackSubmit s
  | call_trackAbandon => trackAbandon
  end.

(** The runtime after the calls [cs], made in order from [r]. *)
Fixpoint run (cs : list MethodCall) (r : Runtime) : Runtime :=
  match cs with
  | [] => r
  | c :: cs' => run cs' (snd (invoke c r))
  end.

(** A runtime that some sequence of calls on a new tracker leads to. *)
Definition reachable (r : Runtime) : Prop :=
  exists cs, r = run cs new_runtime.

End Tracker.


(** *** [identify], [identifyUser], [trackPageView] *)

(** [window.entrolytics?.identify(d)]. *)
Definition optional_identify (present : bool) (d : gmap string EventValue) : list Effect :=
  if present then [TrackerIdentify d] else [].

(** [export function identify(data)]. *)
Definition identify (fuel : nat) (window : option Window) (tracker : nat -> bool)
    (data : gmap string EventValue) : option (list Effect) :=
  waitForTracker fuel window tracker (fun present => optional_identify present data).



(** The object [payload] of [trackPageView], filled by
    [if (url) payload.url = url; if (referrer) payload.referrer = referrer]. *)
Definition pageView_payload (url referrer : option string) : gmap string EventValue :=
  let payload : gmap string EventValue := ∅ in
  let payload :=
    if truthy_string url
    then <["url" := VString (with_default EmptyString url)]> payload
    else payload in
  if truthy_string referrer
  then <["referrer" := VString (with_default EmptyString referrer)]> payload
  else payload.

(** [export function trackPageView(url?, referrer?)]. *)
Definition trackPageView (fuel : nat) (window : option Window) (tracker : nat -> bool)
    (url referrer : option string) : option (list Effect) :=
  waitForTracker fuel window tracker
    (fun present =>
       optional_track present (ArgObject (pageView_payload url referrer)) None).

(** *** [initWebVitals] *)

(** The metric object that the [web-vitals] library hands to a callback. *)
Record Metric := mkMetric {
  m_value : float;
  m_rating : WebVitalRating;
  m_delta : float;
  m_id : string;
  m_navigationType : NavigationType;
  m_attribution : option Attribution
}.

(** The subscription functions imported from [web-vitals]. *)
Inductive VitalHook := onCLS | onINP | onLCP | onFCP | onTTFB.

(** What [initWebVitals] does: a call [onX(m => trackVital(data m))], kept
    as the function called and the argument its callback gives to
    [trackVital], or a call of [console.debug]. *)
Inductive InitEffect :=
| Subscribe (hook : VitalHook) (forwards : Metric -> WebVitalData)
| ConsoleDebug (message : string).

Definition WEB_VITALS_MISSING : string :=
  "[Entrolytics] web-vitals not installed. Use trackVital() for manual tracking.".

(** The five calls [onX(m => trackVital({ metric: 'X', ... }))] in the order
    of the source, each as the function called and the argument that its
    callback gives to [trackVital]. *)
Definition vital_calls : list (VitalHook * (Metric -> WebVitalData)) :=
  [ (onLCP,
     fun m => mkVital LCP (m_value m) (m_rating m) (Some (m_delta m))
                (Some (m_id m)) (Some (m_navigationType m)) (m_attribution m));
    (onINP,
     fun m => mkVital INP (m_value m) (m_rating m) (Some (m_delta m))
                (Some (m_id m)) (Some (m_navigationType m)) (m_attribution m));
    (onCLS,
     fun m => mkVital CLS (m_value m) (m_rating m) (Some (m_delta m))
                (Some (m_id m)) (Some (m_navigationType m)) (m_attribution m));
    (onFCP,
     fun m => mkVital FCP (m_value m) (m_rating m) (Some (m_delta m))
                (Some (m_id m)) (Some (m_navigationType m)) (m_attribution m));
    (onTTFB,
     fun m => mkVital TTFB (m_value m) (m_rating m) (Some (m_delta m))
                (Some (m_id m)) (Some (m_navigationType m)) (m_attribution m)) ].

(** The calls made one after the other.  [exports h] tells whether the
    imported module has the function [h]; a name it lacks is [undefined]
    after the destructuring, and calling it throws a [TypeError], which ends
    the sequence. *)
Fixpoint subscribe_each (exports : VitalHook -> bool)
    (calls : list (VitalHook * (Metric -> WebVitalData)))
    : list InitEffect * Completion unit :=
  match calls with
  | [] => ([], Return tt)
  | (h, f) :: rest =>
      if exports h
      then let '(es, c) := subscribe_each exports rest in (Subscribe h f :: es, c)
      else ([], Throw "TypeError")
  end.

(** [export async function initWebVitals()].  [web_vitals] is [None] when
    [await import('web-vitals')] rejects, and the exports of the module
    otherwise.  The [try] holds the import and the five calls, and its
    [catch] logs the debug message. *)
Definition initWebVitals (window : option Window)
    (web_vitals : option (VitalHook -> bool)) : list InitEffect :=
  match window with
  | None => []
  | Some _ =>
      match web_vitals with
      | None => [ConsoleDebug WEB_VITALS_MISSING]
      | Some exports =>
          match subscribe_each exports vital_calls with
          | (es, Return _) => es
          | (es, Throw _) => (es ++ [ConsoleDebug WEB_VITALS_MISSING])%list
          end
      end
  end.

End Client.

(** ** Vocabulary of the statements *)

Module Spec.
Import Js Index Client.

(** The option set [o] with its [host] replaced. *)
Definition with_host (h : option string) (o : EntrolyticsOptions) : EntrolyticsOptions :=
  mkOptions (websiteId o) h (autoTrack o) (trackOutboundLinks o) (trackFileDownloads o)
    (respectDnt o) (domains o) (cacheScript o) (useEdgeRuntime o) (tag o)
    (excludeSearch o) (excludeHash o).


(** The option set [o] with its [domains] replaced. *)
Definition with_domains (ds : option (list string)) (o : EntrolyticsOptions)
    : EntrolyticsOptions :=
  mkOptions (websiteId o) (host o) (autoTrack o) (trackOutboundLinks o)
    (trackFileDownloads o) (respectDnt o) ds (cacheScript o) (useEdgeRuntime o) (tag o)
    (excludeSearch o) (excludeHash o).

(** The caller's options [p] with the [host] replaced. *)
Definition with_p_host (h : option string) (p : PartialOptions) : PartialOptions :=
  mkPartial (p_websiteId p) h (p_autoTrack p) (p_trackOutboundLinks p)
    (p_trackFileDownloads p) (p_respectDnt p) (p_domains p) (p_cacheScript p)
    (p_useEdgeRuntime p) (p_tag p) (p_excludeSearch p) (p_excludeHash p).

(** The caller's options [p] with the [websiteId] replaced. *)
Definition with_p_websiteId (w : option string) (p : PartialOptions) : PartialOptions :=
  mkPartial w (p_host p) (p_autoTrack p) (p_trackOutboundLinks p)
    (p_trackFileDownloads p) (p_respectDnt p) (p_domains p) (p_cacheScript p)
    (p_useEdgeRuntime p) (p_tag p) (p_excludeSearch p) (p_excludeHash p).

(** A source of the identifier that yields nothing: not set, or set to the
    empty string. *)
Definition absent_or_empty (v : option string) : Prop :=
  v = None \/ v = Some EmptyString.

(** No identifier in the explicit options nor in either environment
    variable. *)
Definition no_identifier (p : PartialOptions) (e : option ImportMetaEnv) : Prop :=
  absent_or_empty (p_websiteId p) /\
  absent_or_empty (PUBLIC_ENTROLYTICS_WEBSITE_ID (env_or_empty e)) /\
  absent_or_empty (VITE_ENTROLYTICS_WEBSITE_ID (env_or_empty e)).

(** The defaults that the doc comments of [EntrolyticsOptions] give. *)
Definition documented_autoTrack : bool := true.
Definition documented_trackOutboundLinks : bool := true.
Definition documented_trackFileDownloads : bool := false.
Definition documented_respectDnt : bool := false.
Definition documented_excludeSearch : bool := false.
Definition documented_excludeHash : bool := false.

(** The value an optional boolean stands for, given its documented default. *)
Definition effective (documented : bool) (v : option bool) : bool :=
  with_default documented v.

(** [[a]] when [c] holds, nothing otherwise. *)
Definition when (c : bool) (a : string) : list string :=
  if c then [a] else [].

(** The rule the code follows for the optional attributes, in the order of
    emission.  Every boolean option but one has an attribute exactly when
    its value differs from the documented default; [trackOutboundLinks] has
    one exactly when it is in effect, which its default is; [domains] and
    [tag] have one exactly when they are set and not empty. *)
Definition optional_attributes_by_rule (o : EntrolyticsOptions) : list string :=
  (when (negb (Bool.eqb (effective documented_autoTrack (autoTrack o))
                 documented_autoTrack)) attr_auto_track ++
   when (effective documented_trackOutboundLinks (trackOutboundLinks o)) attr_outbound ++
   when (negb (Bool.eqb (effective documented_trackFileDownloads (trackFileDownloads o))
                 documented_trackFileDownloads)) attr_downloads ++
   when (negb (Bool.eqb (effective documented_respectDnt (respectDnt o))
                 documented_respectDnt)) attr_dnt ++
   match domains o with
   | Some (d :: ds) => [attr_domains (d :: ds)]
   | _ => []
   end ++
   match tag o with
   | Some (String c t) => [attr_tag (String c t)]
   | _ => []
   end ++
   when (negb (Bool.eqb (effective documented_excludeSearch (excludeSearch o))
                 documented_excludeSearch)) attr_exclude_search ++
   when (negb (Bool.eqb (effective documented_excludeHash (excludeHash o))
                 documented_excludeHash)) attr_exclude_hash)%list.

(** What follows [defer] in the tag: the optional attributes, each after
    a space, and the closing of the element. *)
Definition tag_tail (o : EntrolyticsOptions) : string :=
  match optional_attributes_by_rule o with
  | [] => EmptyString
  | _ :: _ => " " +:+ join " " (optional_attributes_by_rule o)
  end +:+ "></script>".

(** The option set with only the identifier given. *)
Definition only_websiteId (w : string) : EntrolyticsOptions :=
  mkOptions w None None None None None None None None None None None.

(** The tracker shows up at the [k]-th poll and not before. *)
Definition first_present (tracker : nat -> bool) (k : nat) : Prop :=
  tracker k = true /\ forall j, j < k -> tracker j = false.

(** The clock as read from its [k]-th reading on. *)
Definition shifted (clock : nat -> Z) (k : nat) : nat -> Z :=
  fun n => clock (n + k).

(** A clock that never reads the epoch itself: every reading is a positive
    number of milliseconds. *)
Definition after_epoch (clock : nat -> Z) : Prop :=
  forall n, (0 < clock n)%Z.

(** The time since the session start as an event reports it at a reading
    [now] of the clock: absent when no start is recorded. *)
Definition since_start (now : Z) (s : Session) : option Z :=
  match startTime s with
  | Some t0 => Some (now - t0)%Z
  | None => None
  end.

(** A clock for examples: a millisecond per reading, from one second past
    the epoch. *)
Definition example_clock : nat -> Z := fun n => (1000 + Z.of_nat n)%Z.

(** The times kept in a session are positive. *)
Definition times_positive (s : Session) : Prop :=
  (forall t, startTime s = Some t -> (0 < t)%Z) /\
  (forall f t, fieldStartTimes s !! f = Some t -> (0 < t)%Z).

(** The option set [o] with its [cacheScript] replaced. *)
Definition with_cacheScript (c : option bool) (o : EntrolyticsOptions) : EntrolyticsOptions :=
  mkOptions (websiteId o) (host o) (autoTrack o) (trackOutboundLinks o)
    (trackFileDownloads o) (respectDnt o) (domains o) c (useEdgeRuntime o) (tag o)
    (excludeSearch o) (excludeHash o).

(** The caller's options [p] with the [cacheScript] replaced. *)
Definition with_p_cacheScript (c : option bool) (p : PartialOptions) : PartialOptions :=
  mkPartial (p_websiteId p) (p_host p) (p_autoTrack p) (p_trackOutboundLinks p)
    (p_trackFileDownloads p) (p_respectDnt p) (p_domains p) c
    (p_useEdgeRuntime p) (p_tag p) (p_excludeSearch p) (p_excludeHash p).

(** The metric name that goes with a subscription function. *)
Definition metric_of_hook (h : VitalHook) : WebVitalMetric :=
  match h with
  | onCLS => CLS
  | onINP => INP
  | onLCP => LCP
  | onFCP => FCP
  | onTTFB => TTFB
  end.

(** The hooks at the front of [hooks] that the module exports, up to the
    first one it lacks. *)
Fixpoint leading (exports : VitalHook -> bool) (hooks : list VitalHook) : list VitalHook :=
  match hooks with
  | [] => []
  | h :: hs => if exports h then h :: leading exports hs else []
  end.

(** [JSON.stringify] writes the attribution: there is none, or it is a
    record that can be written. *)
Definition writable (a : option Attribution) : Prop :=
  match a with
  | Some (Unwritable _) => False
  | _ => True
  end.

(** The kinds of the events that one call emits, given whether the
    session has a start time that the code takes for one. *)
Definition event_types (c : MethodCall) (started : bool) : list FormEventType :=
  match c with
  | call_trackStart => [start]
  | call_trackFieldFocus _ _ _ => if started then [field_focus] else [start; field_focus]
  | call_trackFieldBlur _ _ _ => [field_blur]
  | call_trackFieldError _ _ _ _ => [field_error]
  | call_trackSubmit _ => [submit]
  | call_trackAbandon => [abandon]
  end.

(** The kinds of the events that the calls [cs] emit one after the other
    from the runtime [r]. *)
Fixpoint run_event_types (clock : nat -> Z) (form_id : string) (form_name : option string)
    (cs : list MethodCall) (r : Runtime) : list FormEventType :=
  match cs with
  | [] => []
  | c :: cs' =>
      (event_types c (truthy_number (startTime (session r))) ++
       run_event_types clock form_id form_name cs'
         (snd (invoke clock form_id form_name c r)))%list
  end.

(** The subscriptions among the effects of [initWebVitals]. *)
Fixpoint subscriptions (es : list InitEffect) : list (VitalHook * (Metric -> WebVitalData)) :=
  match es with
  | [] => []
  | Subscribe h f :: es' => (h, f) :: subscriptions es'
  | ConsoleDebug _ :: es' => subscriptions es'
  end.

(** [v ? Date.now() - v : undefined] at the [n]-th reading of the clock:
    the value, and the number of the next reading. *)
Definition reading (clock : nat -> Z) (v : option Z) (n : nat) : option Z * nat :=
  if truthy_number v
  then (Some (clock n - with_default 0 v)%Z, S n)
  else (None, n).

(** A clock that never runs backwards. *)
Definition monotone (clock : nat -> Z) : Prop :=
  forall i j, i <= j -> (clock i <= clock j)%Z.

(** The times kept in a runtime are earlier readings of its clock. *)
Definition times_read (clock : nat -> Z) (r : Runtime) : Prop :=
  (forall t, startTime (session r) = Some t -> exists i, i < ticks r /\ t = clock i) /\
  (forall f t, fieldStartTimes (session r) !! f = Some t ->
               exists i, i < ticks r /\ t = clock i).

(** The durations that an event reports are not negative. *)
Definition durations_nonneg (e : FormEventData) : Prop :=
  (forall d, timeOnField e = Some d -> (0 <= d)%Z) /\
  (forall d, timeSinceStart e = Some d -> (0 <= d)%Z).

(** The event belongs to the form of the tracker, and names no path. *)
Definition of_form (form_id : string) (form_name : option string) (e : FormEventData) : Prop :=
  formId e = form_id /\ formName e = form_name /\ urlPath e = None.

(** The payload that [trackFormEvent] posts has the fields of the event. *)
Definition payload_of_event (p : FormPayload) (e : FormEventData) : Prop :=
  fp_eventType p = eventType e /\ fp_formId p = formId e /\ fp_formName p = formName e /\
  fp_fieldName p = fieldName e /\ fp_fieldType p = fieldType e /\
  fp_fieldIndex p = fieldIndex e /\ fp_timeOnField p = timeOnField e /\
  fp_timeSinceStart p = timeSinceStart e /\ fp_errorMessage p = errorMessage e /\
  fp_success p = success e.

End Spec.

(** ** Strings *)

Import Js Index Client Spec.

Lemma append_cons (c : ascii) (a b : string) : String c a +:+ b = String c (a +:+ b).
Proof. reflexivity. Qed.

Lemma append_assoc (a b c : string) : (a +:+ b) +:+ c = a +:+ (b +:+ c).
Proof.
  induction a as [|x a IH]; [reflexivity|].
  rewrite !append_cons. f_equal. exact IH.
Qed.

Lemma strip_trailing_slash_snoc (h : string) :
  strip_trailing_slash (h +:+ "/") = h.
Proof.
  induction h as [|c h IH]; [reflexivity|].
  rewrite append_cons.
  cbn [strip_trailing_slash].
  destruct (h +:+ "/") eqn:E.
  - destruct h; discriminate E.
  - now rewrite IH.
Qed.

Lemma strip_trailing_slash_id (h : string) :
  ends_with_slash h = false -> strip_trailing_slash h = h.
Proof.
  induction h as [|c h IH]; [reflexivity|].
  cbn [strip_trailing_slash ends_with_slash].
  destruct h as [|c' h'].
  - intros ->. reflexivity.
  - intros H. now rewrite (IH H).
Qed.

Lemma truthy_string_false (v : option string) :
  truthy_string v = false <-> absent_or_empty v.
Proof.
  unfold absent_or_empty. destruct v as [[|c s]|]; simpl; split; intros H; auto.
  - discriminate.
  - destruct H; discriminate.
Qed.

(** ** The script tag *)

Lemma push_if_when (c : bool) (a : string) (l : list string) :
  push_if c a l = (l ++ when c a)%list.
Proof. destruct c; simpl; [reflexivity|]. now rewrite app_nil_r. Qed.

Lemma attributes_by_rule (o : EntrolyticsOptions) :
  attributes o = (base_attributes o ++ optional_attributes_by_rule o)%list.
Proof.
  unfold attributes, optional_attributes_by_rule. cbv zeta.
  rewrite !push_if_when, <- !app_assoc.
  apply (f_equal2 (@app string)); [reflexivity|].
  apply (f_equal2 (@app string)); [destruct (autoTrack o) as [[]|]; reflexivity|].
  apply (f_equal2 (@app string)); [destruct (trackOutboundLinks o) as [[]|]; reflexivity|].
  apply (f_equal2 (@app string)); [destruct (trackFileDownloads o) as [[]|]; reflexivity|].
  apply (f_equal2 (@app string)); [destruct (respectDnt o) as [[]|]; reflexivity|].
  apply (f_equal2 (@app string)); [destruct (domains o) as [[|d ds]|]; reflexivity|].
  apply (f_equal2 (@app string)); [destruct (tag o) as [[|c t]|]; reflexivity|].
  apply (f_equal2 (@app string)); [destruct (excludeSearch o) as [[]|]; reflexivity|].
  destruct (excludeHash o) as [[]|]; reflexivity.
Qed.

Lemma in_when (c : bool) (a b : string) : In b (when c a) <-> c = true /\ b = a.
Proof.
  destruct c; simpl; split.
  - intros [H|[]]; auto.
  - intros [_ ->]; auto.
  - intros [].
  - intros [H _]; discriminate.
Qed.

(** Two attribute strings that differ somewhere in their fixed prefix. *)
Ltac distinct_attributes H :=
  cbv in H; discriminate H.

(** With [autoTrack] at its documented default there is no
    [data-auto-track] attribute among the optional ones. *)
Lemma autoTrack_default_no_attribute (o : EntrolyticsOptions) :
  effective documented_autoTrack (autoTrack o) = documented_autoTrack ->
  ~ In attr_auto_track (optional_attributes_by_rule o).
Proof.
  intros Hd Hin. unfold optional_attributes_by_rule in Hin.
  repeat (apply in_app_or in Hin; destruct Hin as [Hin|Hin]);
    try (apply in_when in Hin; destruct Hin as [Hc He]).
  - rewrite Hd in Hc. discriminate Hc.
  - distinct_attributes He.
  - distinct_attributes He.
  - distinct_attributes He.
  - destruct (domains o) as [[|d ds]|]; simpl in Hin; try contradiction.
    destruct Hin as [He|[]]. distinct_attributes He.
  - destruct (tag o) as [[|c t]|]; simpl in Hin; try contradiction.
    destruct Hin as [He|[]]. distinct_attributes He.
  - distinct_attributes He.
  - distinct_attributes He.
Qed.

(** The outbound-links attribute is there exactly when the option is in
    effect. *)
Lemma outbound_attribute_iff (o : EntrolyticsOptions) :
  In attr_outbound (optional_attributes_by_rule o) <->
  effective documented_trackOutboundLinks (trackOutboundLinks o) = true.
Proof.
  split.
  - intros Hin. unfold optional_attributes_by_rule in Hin.
    repeat (apply in_app_or in Hin; destruct Hin as [Hin|Hin]);
      try (apply in_when in Hin; destruct Hin as [Hc He]);
      try (distinct_attributes He).
    + exact Hc.
    + destruct (domains o) as [[|d ds]|]; simpl in Hin; try contradiction.
      destruct Hin as [He|[]]. distinct_attributes He.
    + destruct (tag o) as [[|c t]|]; simpl in Hin; try contradiction.
      destruct Hin as [He|[]]. distinct_attributes He.
  - intros Hc. unfold optional_attributes_by_rule.
    apply in_or_app. right. apply in_or_app. left.
    apply in_when. auto.
Qed.

(** C1, as amended.  For every option set, the attributes of the rendered
    tag are the three fixed ones followed by the optional ones that the rule
    [optional_attributes_by_rule] gives, in that order and nothing else:
    [autoTrack], [trackFileDownloads], [respectDnt], [excludeSearch] and
    [excludeHash] contribute an attribute exactly when their value differs
    from the documented default, [domains] and [tag] exactly when set and
    not empty, and [trackOutboundLinks] exactly when it is in effect (true
    or unset). *)
Theorem generateScriptTag_attributes_by_rule (o : EntrolyticsOptions) :
  attributes o = (base_attributes o ++ optional_attributes_by_rule o)%list /\
  generateScriptTag o =
    "<script " +:+ join " " (base_attributes o ++ optional_attributes_by_rule o)
    +:+ "></script>" /\
  (In attr_outbound (optional_attributes_by_rule o) <->
   effective documented_trackOutboundLinks (trackOutboundLinks o) = true).
Proof.
  split; [apply attributes_by_rule|].
  split; [|apply outbound_attribute_iff].
  unfold generateScriptTag. now rewrite attributes_by_rule.
Qed.

(** C1, as stated, fails.  With only the identifier given,
    [trackOutboundLinks] has its documented default, and yet the tag holds
    the attribute [data-track-outbound-links]. *)
Lemma generateScriptTag_default_emits_outbound :
  websiteId (only_websiteId "abc") <> EmptyString /\
  effective documented_trackOutboundLinks (trackOutboundLinks (only_websiteId "abc"))
    = documented_trackOutboundLinks /\
  In attr_outbound (attributes (only_websiteId "abc")) /\
  generateScriptTag (only_websiteId "abc") =
    "<script src=" +:+ dq +:+ "https://entrolytics.click/script-edge.js" +:+ dq +:+
    " data-website-id=" +:+ dq +:+ "abc" +:+ dq +:+
    " defer data-track-outbound-links=" +:+ dq +:+ "true" +:+ dq +:+ "></script>".
Proof.
  split; [discriminate|].
  split; [reflexivity|].
  split; [|reflexivity].
  cbv. auto.
Qed.

Lemma generateScriptTag_src (o : EntrolyticsOptions) :
  exists rest,
    generateScriptTag o = "<script src=" +:+ dq +:+ scriptUrl o +:+ dq +:+ rest.
Proof.
  exists (" " +:+ join " " (List.tl (attributes o)) +:+ "></script>").
  unfold generateScriptTag. rewrite attributes_by_rule.
  unfold base_attributes, join.
  cbn [app List.tl String.concat].
  rewrite !append_assoc. reflexivity.
Qed.

(** C5.  Whatever the host, the tag refers to [/script-edge.js] when
    [useEdgeRuntime] is true or unset and to [/script.js] when it is
    false: the path follows the host, stripped of one trailing slash, in the
    [src] attribute that opens the tag. *)
Theorem generateScriptTag_script_path (o : EntrolyticsOptions) :
  let h := strip_trailing_slash (with_default DEFAULT_HOST (host o)) in
  (useEdgeRuntime o = Some true \/ useEdgeRuntime o = None ->
   scriptPath o = "/script-edge.js" /\
   exists rest,
     generateScriptTag o =
       "<script src=" +:+ dq +:+ (h +:+ "/script-edge.js") +:+ dq +:+ rest) /\
  (useEdgeRuntime o = Some false ->
   scriptPath o = "/script.js" /\
   exists rest,
     generateScriptTag o = "<script src=" +:+ dq +:+ (h +:+ "/script.js") +:+ dq +:+ rest).
Proof.
  intros h. destruct (generateScriptTag_src o) as [rest Hrest].
  unfold scriptUrl in Hrest. fold h in Hrest.
  split.
  - intros Hedge.
    assert (Hp : scriptPath o = "/script-edge.js").
    { unfold scriptPath. destruct Hedge as [-> | ->]; reflexivity. }
    split; [exact Hp|]. exists rest. now rewrite <- Hp.
  - intros Hnode.
    assert (Hp : scriptPath o = "/script.js").
    { unfold scriptPath. now rewrite Hnode. }
    split; [exact Hp|]. exists rest. now rewrite <- Hp.
Qed.

Lemma generateScriptTag_script_path_witness :
  let o := with_host (Some "https://x.com/") (only_websiteId "abc") in
  scriptPath o = "/script-edge.js" /\
  exists rest,
    generateScriptTag o =
      "<script src=" +:+ dq +:+ ("https://x.com" +:+ "/script-edge.js") +:+ dq +:+ rest.
Proof.
  intros o.
  apply (proj1 (generateScriptTag_script_path o)).
  right. reflexivity.
Defined.

(** ** Host normalization *)

Lemma generateScriptTag_host_only (o : EntrolyticsOptions) (h1 h2 : string) :
  strip_trailing_slash h1 = strip_trailing_slash h2 ->
  generateScriptTag (with_host (Some h1) o) = generateScriptTag (with_host (Some h2) o).
Proof.
  intros H.
  unfold generateScriptTag, attributes, base_attributes, scriptUrl, scriptPath, with_host.
  cbn [host websiteId autoTrack trackOutboundLinks trackFileDownloads respectDnt domains
       useEdgeRuntime tag excludeSearch excludeHash with_default].
  now rewrite H.
Qed.

Lemma configScript_host_only (w h1 h2 : string) :
  strip_trailing_slash h1 = strip_trailing_slash h2 ->
  configScript w h1 = configScript w h2.
Proof. intros H. unfold configScript. now rewrite H. Qed.

Lemma resolve_host_explicit (p : PartialOptions) (env : ImportMetaEnv) (h : string) :
  h <> EmptyString -> resolve_host (with_p_host (Some h) p) env = h.
Proof.
  intros Hne. destruct h as [|c h]; [congruence|reflexivity].
Qed.

(** ** Resolution of the identifier *)

Lemma truthy_or_string (a b : option string) :
  truthy_string (or_string a b) = truthy_string a || truthy_string b.
Proof. unfold or_string. destruct (truthy_string a) eqn:E; [exact E|reflexivity]. Qed.

Lemma resolve_websiteId_falsy (p : PartialOptions) (e : option ImportMetaEnv) :
  truthy_string (resolve_websiteId p (env_or_empty e)) = false <-> no_identifier p e.
Proof.
  unfold resolve_websiteId, no_identifier.
  rewrite !truthy_or_string, !orb_false_iff, !truthy_string_false. tauto.
Qed.

(** How the factory ends, by whether an identifier is found. *)
Lemma entrolytics_cases (p : PartialOptions) (e : option ImportMetaEnv) :
  let env := env_or_empty e in
  (no_identifier p e /\
   entrolytics p e =
     ((if truthy_bool (DEV env) then [console_warn MISSING_WARNING] else []),
      Throw REQUIRED_ERROR)) \/
  (~ no_identifier p e /\
   exists w,
     resolve_websiteId p env = Some w /\ w <> EmptyString /\
     entrolytics p e =
       ([], Return (mkIntegration "@entrolytics/astro"
                      (config_setup_hook (finalOptions p w (resolve_host p env))
                         w (resolve_host p env))))).
Proof.
  intros env. unfold entrolytics. fold env.
  destruct (truthy_string (resolve_websiteId p env)) eqn:E; cbn [negb].
  - right. split.
    + intros H. apply resolve_websiteId_falsy in H. unfold env in E. congruence.
    + destruct (resolve_websiteId p env) as [w|] eqn:Ew; [|discriminate E].
      exists w. split; [reflexivity|]. split; [|reflexivity].
      intros ->. discriminate E.
  - left. split; [|reflexivity]. now apply resolve_websiteId_falsy.
Qed.










(** ** Waiting for the tracker *)

Lemma tryExecute_from (tracker : nat -> bool) (callback : bool -> list Effect)
    (k extra j : nat) :
  tracker (j + k) = true ->
  (forall i, i < k -> tracker (j + i) = false) ->
  tryExecute (S k + extra) tracker j callback =
    Some (repeat (SetTimeout 100) k ++ callback true)%list.
Proof.
  revert j. induction k as [|k IH]; intros j Hk Hbefore.
  - rewrite Nat.add_0_r in Hk. cbn [tryExecute Nat.add]. now rewrite Hk.
  - change (S (S k) + extra) with (S (S k + extra)). cbn [tryExecute].
    assert (H0 : tracker j = false).
    { rewrite <- (Nat.add_0_r j). apply Hbefore. lia. }
    rewrite H0, (IH (S j)).
    + reflexivity.
    + now rewrite <- Nat.add_succ_comm in Hk.
    + intros i Hi. rewrite Nat.add_succ_comm. apply Hbefore. lia.
Qed.

Lemma tryExecute_not_yet (tracker : nat -> bool) (callback : bool -> list Effect)
    (fuel j : nat) :
  (forall i, i < fuel -> tracker (j + i) = false) ->
  tryExecute fuel tracker j callback = None.
Proof.
  revert j. induction fuel as [|fuel IH]; intros j Hbefore; [reflexivity|].
  cbn [tryExecute].
  assert (H0 : tracker j = false).
  { rewrite <- (Nat.add_0_r j). apply Hbefore. lia. }
  rewrite H0, (IH (S j)); [reflexivity|].
  intros i Hi. rewrite Nat.add_succ_comm. apply Hbefore. lia.
Qed.




(** While the tracker has not shown up nothing is delegated, and outside a
    browser nothing is ever. *)
Lemma trackRevenue_before_tracker (w : Window) (tracker : nat -> bool) (fuel : nat)
    (eventName : string) (revenue : float) (currency : option string)
    (data : option (gmap string EventValue)) :
  (forall i, i < fuel -> tracker i = false) ->
  trackRevenue fuel (Some w) tracker eventName revenue currency data = None /\
  trackRevenue fuel None tracker eventName revenue currency data = Some [].
Proof.
  intros H. split; [|reflexivity].
  unfold trackRevenue, waitForTracker. cbv zeta. now apply tryExecute_not_yet.
Qed.

(** ** Tracking without a configuration *)

Lemma trackVital_returns (window : option Window) (network : string -> Completion unit)
    (data : WebVitalData) :
  snd (trackVital window network data) = Return tt.
Proof.
  unfold trackVital. destruct window as [w|]; [|reflexivity].
  destruct (getConfig (Some w)) as [config|]; [|reflexivity].
  unfold try_catch, await_post, await_fetch.
  destruct (JSON_stringify _) as [written|err]; [|reflexivity].
  destruct (network _) as [[]|err]; reflexivity.
Qed.

Lemma trackFormEvent_returns (window : option Window) (network : string -> Completion unit)
    (data : FormEventData) :
  snd (trackFormEvent window network data) = Return tt.
Proof.
  unfold trackFormEvent. destruct window as [w|]; [|reflexivity].
  destruct (getConfig (Some w)) as [config|]; [|reflexivity].
  unfold try_catch, await_post, await_fetch.
  destruct (JSON_stringify _) as [written|err]; [|reflexivity].
  destruct (network _) as [[]|err]; reflexivity.
Qed.

(** C4, as amended.  When there is no configuration object, [trackVital]
    and [trackFormEvent] return without throwing and without a network
    call.  In a browser they log the one warning and do nothing else;
    outside a browser, where [window] itself is missing, they return at once
    and log nothing. *)
Theorem tracking_without_config (window : option Window)
    (network : string -> Completion unit) (vital : WebVitalData) (event : FormEventData) :
  getConfig window = None ->
  snd (trackVital window network vital) = Return tt /\
  snd (trackFormEvent window network event) = Return tt /\
  (forall url init, ~ In (Fetch url init) (fst (trackVital window network vital))) /\
  (forall url init, ~ In (Fetch url init) (fst (trackFormEvent window network event))) /\
  (forall w, window = Some w ->
             fst (trackVital window network vital) = [ConsoleWarn CONFIG_NOT_FOUND] /\
             fst (trackFormEvent window network event) = [ConsoleWarn CONFIG_NOT_FOUND]) /\
  (window = None ->
   fst (trackVital window network vital) = [] /\
   fst (trackFormEvent window network event) = []).
Proof.
  intros Hcfg.
  split; [apply trackVital_returns|].
  split; [apply trackFormEvent_returns|].
  unfold trackVital, trackFormEvent. rewrite Hcfg.
  destruct window as [w|]; cbn [fst].
  - split; [intros url init [H|[]]; discriminate H|].
    split; [intros url init [H|[]]; discriminate H|].
    split; [intros w' _; split; reflexivity|].
    intros H; discriminate H.
  - split; [intros url init []|].
    split; [intros url init []|].
    split; [intros w' H; discriminate H|].
    intros _; split; reflexivity.
Qed.

Lemma tracking_without_config_witness :
  let window := Some (mkWindow None "https://x.com/page" "/page") in
  let network := fun _ : string => Return tt in
  fst (trackVital window network (mkVital LCP 1200%float good None None None None)) =
    [ConsoleWarn CONFIG_NOT_FOUND] /\
  fst (trackFormEvent window network
         (mkFormEvent submit "contact-form" None None None None None None None None
            (Some true))) =
    [ConsoleWarn CONFIG_NOT_FOUND].
Proof.
  intros window network.
  destruct (tracking_without_config window network
              (mkVital LCP 1200%float good None None None None)
              (mkFormEvent submit "contact-form" None None None None None None None None
                 (Some true)) eq_refl)
    as (_ & _ & _ & _ & Hwarn & _).
  exact (Hwarn _ eq_refl).
Defined.

(** C4, as stated, fails.  Outside a browser there is no configuration
    object, and both functions return without logging the warning. *)
Lemma tracking_outside_browser_logs_nothing :
  let network := fun _ : string => Return tt in
  let vital := mkVital LCP 1200%float good None None None None in
  let event :=
    mkFormEvent submit "contact-form" None None None None None None None None (Some true) in
  getConfig None = None /\
  ~ In (ConsoleWarn CONFIG_NOT_FOUND) (fst (trackVital None network vital)) /\
  ~ In (ConsoleWarn CONFIG_NOT_FOUND) (fst (trackFormEvent None network event)) /\
  trackVital None network vital = ([], Return tt) /\
  trackFormEvent None network event = ([], Return tt).
Proof.
  intros network vital event.
  split; [reflexivity|].
  split; [intros []|].
  split; [intros []|].
  split; reflexivity.
Qed.

(** ** The form tracker *)

Section FormTracker.

Variable clock : nat -> Z.
Variable form_id : string.
Variable form_name : option string.

Local Abbreviation trackStart := (trackStart clock form_id form_name).
Local Abbreviation trackFieldFocus := (trackFieldFocus clock form_id form_name).
Local Abbreviation trackFieldBlur := (trackFieldBlur clock form_id form_name).
Local Abbreviation trackFieldError := (trackFieldError clock form_id form_name).
Local Abbreviation trackSubmit := (trackSubmit clock form_id form_name).
Local Abbreviation trackAbandon := (trackAbandon clock form_id form_name).
Local Abbreviation invoke := (invoke clock form_id form_name).
Local Abbreviation run := (run clock form_id form_name).

(** What [v ? Date.now() - v : undefined] yields and costs. *)
Lemma elapsed_since_run (v : option Z) (r : Runtime) :
  elapsed_since clock v r =
    if truthy_number v
    then (Some (clock (ticks r) - with_default 0 v)%Z,
          mkRuntime (session r) (S (ticks r)) (emitted r))
    else (None, r).
Proof. unfold elapsed_since. destruct (truthy_number v); reflexivity. Qed.

(** The session after each method. *)

Lemma trackStart_session (r : Runtime) :
  session (snd (trackStart r)) =
    mkSession (Some (clock (ticks r))) (fieldStartTimes (session r)).
Proof. reflexivity. Qed.

Lemma trackFieldFocus_session (f : string) (ty : option string) (ix : option Z)
    (r : Runtime) :
  session (snd (trackFieldFocus f ty ix r)) =
    if truthy_number (startTime (session r))
    then mkSession (startTime (session r))
           (<[f := clock (ticks r)]> (fieldStartTimes (session r)))
    else mkSession (Some (clock (ticks r)))
           (<[f := clock (S (ticks r))]> (fieldStartTimes (session r))).
Proof.
  unfold Client.trackFieldFocus, bind, get_startTime.
  destruct (truthy_number (startTime (session r))); reflexivity.
Qed.

Lemma trackFieldBlur_session (f : string) (ty : option string) (ix : option Z)
    (r : Runtime) :
  session (snd (trackFieldBlur f ty ix r)) = session r.
Proof.
  unfold Client.trackFieldBlur, bind, fieldStartTimes_get, get_startTime.
  rewrite elapsed_since_run.
  destruct (truthy_number (fieldStartTimes (session r) !! f));
    rewrite elapsed_since_run; cbn [session];
    destruct (truthy_number (startTime (session r))); reflexivity.
Qed.

Lemma trackFieldError_session (f msg : string) (ty : option string) (ix : option Z)
    (r : Runtime) :
  session (snd (trackFieldError f msg ty ix r)) = session r.
Proof.
  unfold Client.trackFieldError, bind, get_startTime. rewrite elapsed_since_run.
  destruct (truthy_number (startTime (session r))); reflexivity.
Qed.

Lemma trackSubmit_session (success : bool) (r : Runtime) :
  session (snd (trackSubmit success r)) = new_session.
Proof.
  unfold Client.trackSubmit, bind, get_startTime. rewrite elapsed_since_run.
  destruct (truthy_number (startTime (session r))); reflexivity.
Qed.

Lemma trackAbandon_run (r : Runtime) :
  trackAbandon r =
    (tt,
     if truthy_number (startTime (session r))
     then mkRuntime (session r) (S (ticks r))
            (emitted r ++
             [mkFormEvent abandon form_id form_name None None None None None
                (Some (clock (ticks r) - with_default 0 (startTime (session r)))%Z)
                None None])%list
     else mkRuntime (session r) (ticks r)
            (emitted r ++
             [mkFormEvent abandon form_id form_name None None None None None None
                None None])%list).
Proof.
  unfold Client.trackAbandon, bind, get_startTime. rewrite elapsed_since_run.
  destruct (truthy_number (startTime (session r))); reflexivity.
Qed.

Lemma times_positive_truthy (s : Session) :
  times_positive s ->
  truthy_number (startTime s) = true <-> is_Some (startTime s).
Proof.
  intros [Hst _]. destruct (startTime s) as [t|] eqn:E; simpl.
  - specialize (Hst t eq_refl). split; [eauto|]. intros _.
    destruct (Z.eqb_spec t 0); [lia|reflexivity].
  - split; [discriminate|]. intros [x Hx]. discriminate Hx.
Qed.

Lemma positive_insert (m : gmap string Z) (f : string) (t : Z) :
  (0 < t)%Z ->
  (forall g u, m !! g = Some u -> (0 < u)%Z) ->
  forall g u, <[f := t]> m !! g = Some u -> (0 < u)%Z.
Proof.
  intros Ht Hm g u. destruct (decide (f = g)) as [->|Hne].
  - rewrite lookup_insert_eq. intros [= <-]. exact Ht.
  - rewrite lookup_insert_ne by exact Hne. apply Hm.
Qed.


Hypothesis clock_after_epoch : after_epoch clock.

Lemma invoke_times_positive (c : MethodCall) (r : Runtime) :
  times_positive (session r) -> times_positive (session (snd (invoke c r))).
Proof.
  intros [Hst Hf]. destruct c as [|f ty ix|f ty ix|f msg ty ix|success|]; cbn [Client.invoke].
  - rewrite trackStart_session. split; cbn.
    + intros t [= <-]. apply clock_after_epoch.
    + exact Hf.
  - rewrite trackFieldFocus_session.
    destruct (truthy_number (startTime (session r))); split; cbn.
    + exact Hst.
    + apply positive_insert; [apply clock_after_epoch | exact Hf].
    + intros t [= <-]. apply clock_after_epoch.
    + apply positive_insert; [apply clock_after_epoch | exact Hf].
  - rewrite trackFieldBlur_session. now split.
  - rewrite trackFieldError_session. now split.
  - rewrite trackSubmit_session. split; cbn.
    + discriminate.
    + intros f t H. rewrite lookup_empty in H. discriminate H.
  - rewrite trackAbandon_run. cbn [snd].
    destruct (truthy_number (startTime (session r))); now split.
Qed.

Lemma run_times_positive (cs : list MethodCall) (r : Runtime) :
  times_positive (session r) -> times_positive (session (run cs r)).
Proof.
  revert r. induction cs as [|c cs IH]; intros r H; [exact H|].
  cbn [Client.run]. apply IH. now apply invoke_times_positive.
Qed.

Lemma reachable_times_positive (r : Runtime) :
  reachable clock form_id form_name r -> times_positive (session r).
Proof.
  intros [cs ->]. apply run_times_positive. split; cbn.
  - discriminate.
  - intros f t H. rewrite lookup_empty in H. discriminate H.
Qed.

End FormTracker.


Lemma example_clock_after_epoch : after_epoch example_clock.
Proof. intros n. unfold example_clock. lia. Qed.

(** C3.  From any state of the session, [trackSubmit] leaves the start
    time cleared and the field map empty, as in a new tracker.  A
    [trackFieldFocus] that follows reads the clock for a new start time,
    emits [start] and then [field_focus] with the time elapsed since that
    new start, and keeps only the focused field in the map: the session and
    the events are those of the same call on a newly created tracker
    reading the same clock. *)
Theorem trackSubmit_resets_session (clock : nat -> Z) (form_id : string)
    (form_name : option string) (success : bool) (r : Runtime) :
  let r1 := snd (trackSubmit clock form_id form_name success r) in
  session r1 = new_session /\
  forall (f : string) (ty : option string) (ix : option Z),
    let r2 := snd (trackFieldFocus clock form_id form_name f ty ix r1) in
    let r0 := snd (trackFieldFocus (shifted clock (ticks r1)) form_id form_name f ty ix
                     new_runtime) in
    startTime (session r2) = Some (clock (ticks r1)) /\
    fieldStartTimes (session r2) = {[ f := clock (S (ticks r1)) ]} /\
    emitted r2 =
      (emitted r1 ++
       [ mkFormEvent start form_id form_name None None None None None None None None;
         mkFormEvent field_focus form_id form_name None (Some f) ty ix None
           (Some (clock (S (S (ticks r1))) - clock (ticks r1))%Z) None None ])%list /\
    session r2 = session r0 /\
    emitted r2 = (emitted r1 ++ emitted r0)%list.
Proof.
  intros r1.
  assert (H1 : session r1 = new_session) by apply trackSubmit_session.
  split; [exact H1|].
  intros f ty ix. destruct r1 as [s n ev]. cbn [session] in H1. subst s.
  cbn [ticks emitted].
  split.
  { rewrite trackFieldFocus_session. reflexivity. }
  split.
  { rewrite trackFieldFocus_session.
    cbn [session startTime new_session truthy_number fieldStartTimes ticks].
    apply insert_empty. }
  split.
  { cbn. now rewrite <- app_assoc. }
  split.
  { rewrite !trackFieldFocus_session. reflexivity. }
  cbn. now rewrite <- app_assoc.
Qed.







(** ** Further properties of the script tag and the factory *)

Lemma ends_with_slash_strip (h : string) :
  ends_with_slash h = true -> strip_trailing_slash h +:+ "/" = h.
Proof.
  induction h as [|c h IH]; [discriminate|].
  cbn [strip_trailing_slash ends_with_slash].
  destruct h as [|c' h'].
  - intros Hc. rewrite Hc. apply Ascii.eqb_eq in Hc. now subst c.
  - intros H. rewrite append_cons. f_equal. exact (IH H).
Qed.

Lemma length_append (a b : string) :
  String.length (a +:+ b) = String.length a + String.length b.
Proof.
  induction a as [|c a IH]; [reflexivity|].
  rewrite append_cons. cbn [String.length]. now rewrite IH.
Qed.

(** X1.  [s.replace(/\/$/, '')] takes away the last character of a string
    that ends in a slash, and only that one; any other string, the empty
    one included, is returned as it is. *)
Theorem strip_trailing_slash_exact (h : string) :
  (ends_with_slash h = true ->
   strip_trailing_slash h +:+ "/" = h /\
   S (String.length (strip_trailing_slash h)) = String.length h) /\
  (ends_with_slash h = false -> strip_trailing_slash h = h).
Proof.
  split.
  - intros H. pose proof (ends_with_slash_strip h H) as Hs.
    split; [exact Hs|].
    rewrite <- Hs at 2. rewrite length_append. cbn [String.length]. lia.
  - apply strip_trailing_slash_id.
Qed.

Lemma strip_trailing_slash_exact_witness :
  strip_trailing_slash "https://x.com//" +:+ "/" = "https://x.com//" /\
  S (String.length (strip_trailing_slash "https://x.com//")) =
    String.length "https://x.com//".
Proof. apply (proj1 (strip_trailing_slash_exact "https://x.com//")). reflexivity. Defined.

Lemma truthy_string_some (s : string) :
  s <> EmptyString -> truthy_string (Some s) = true.
Proof. destruct s; [congruence|reflexivity]. Qed.

(** X2.  The host is the first non-empty one of the explicit option,
    [PUBLIC_ENTROLYTICS_HOST], [VITE_ENTROLYTICS_HOST] and the default
    host, in this order; it is never empty. *)
Theorem resolve_host_precedence (p : PartialOptions) (env : ImportMetaEnv) :
  resolve_host p env <> EmptyString /\
  (forall h, p_host p = Some h -> h <> EmptyString -> resolve_host p env = h) /\
  (forall h, absent_or_empty (p_host p) ->
             PUBLIC_ENTROLYTICS_HOST env = Some h -> h <> EmptyString ->
             resolve_host p env = h) /\
  (forall h, absent_or_empty (p_host p) ->
             absent_or_empty (PUBLIC_ENTROLYTICS_HOST env) ->
             VITE_ENTROLYTICS_HOST env = Some h -> h <> EmptyString ->
             resolve_host p env = h) /\
  (absent_or_empty (p_host p) ->
   absent_or_empty (PUBLIC_ENTROLYTICS_HOST env) ->
   absent_or_empty (VITE_ENTROLYTICS_HOST env) ->
   resolve_host p env = DEFAULT_HOST).
Proof.
  unfold resolve_host, or_string. cbv zeta.
  split.
  { destruct (p_host p) as [[|c1 h1]|], (PUBLIC_ENTROLYTICS_HOST env) as [[|c2 h2]|],
      (VITE_ENTROLYTICS_HOST env) as [[|c3 h3]|]; discriminate. }
  split.
  { intros h -> Hne. rewrite (truthy_string_some h Hne).
    rewrite (truthy_string_some h Hne). rewrite (truthy_string_some h Hne). reflexivity. }
  split.
  { intros h He -> Hne. apply truthy_string_false in He. rewrite He.
    rewrite (truthy_string_some h Hne). rewrite (truthy_string_some h Hne). reflexivity. }
  split.
  { intros h He Hp -> Hne.
    apply truthy_string_false in He. apply truthy_string_false in Hp.
    rewrite He, Hp. rewrite (truthy_string_some h Hne). reflexivity. }
  intros He Hp Hv.
  apply truthy_string_false in He. apply truthy_string_false in Hp.
  apply truthy_string_false in Hv.
  rewrite He, Hp, Hv. reflexivity.
Qed.

Lemma resolve_host_precedence_witness :
  resolve_host (with_p_host (Some EmptyString) empty_options)
    (mkEnv None None None (Some "https://self.example") None) = "https://self.example".
Proof.
  destruct (resolve_host_precedence (with_p_host (Some EmptyString) empty_options)
              (mkEnv None None None (Some "https://self.example") None))
    as (_ & _ & _ & Hvite & _).
  apply Hvite.
  - right. reflexivity.
  - left. reflexivity.
  - reflexivity.
  - discriminate.
Defined.

(** X3.  A non-empty [websiteId] in the explicit options is the one used,
    whatever the environment holds: the factory returns the integration
    built for it and logs nothing, also when [DEV] is set. *)
Theorem entrolytics_explicit_websiteId (p : PartialOptions) (e : option ImportMetaEnv)
    (w : string) :
  p_websiteId p = Some w -> w <> EmptyString ->
  entrolytics p e =
    ([], Return (mkIntegration "@entrolytics/astro"
                   (config_setup_hook
                      (finalOptions p w (resolve_host p (env_or_empty e)))
                      w (resolve_host p (env_or_empty e))))).
Proof.
  intros Hw Hne.
  assert (Hres : resolve_websiteId p (env_or_empty e) = Some w).
  { unfold resolve_websiteId, or_string. rewrite Hw.
    rewrite (truthy_string_some w Hne). now rewrite (truthy_string_some w Hne). }
  unfold entrolytics. cbv zeta. rewrite Hres.
  rewrite (truthy_string_some w Hne). reflexivity.
Qed.

Lemma entrolytics_explicit_websiteId_witness :
  entrolytics (with_p_websiteId (Some "site-1") empty_options)
    (Some (mkEnv (Some "site-2") (Some "site-3") None None (Some true))) =
  ([], Return (mkIntegration "@entrolytics/astro"
                 (config_setup_hook
                    (finalOptions (with_p_websiteId (Some "site-1") empty_options)
                       "site-1" DEFAULT_HOST)
                    "site-1" DEFAULT_HOST))).
Proof.
  apply (entrolytics_explicit_websiteId (with_p_websiteId (Some "site-1") empty_options)
           (Some (mkEnv (Some "site-2") (Some "site-3") None None (Some true))) "site-1").
  - reflexivity.
  - discriminate.
Defined.

Lemma generateScriptTag_fixed_attributes (o : EntrolyticsOptions) :
  generateScriptTag o =
    "<script src=" +:+ dq +:+ scriptUrl o +:+ dq +:+
    " data-website-id=" +:+ dq +:+ websiteId o +:+ dq +:+ " defer" +:+ tag_tail o.
Proof.
  unfold generateScriptTag, tag_tail. rewrite attributes_by_rule.
  unfold base_attributes, join. cbn [app String.concat].
  destruct (optional_attributes_by_rule o) as [|a opt];
    rewrite !append_assoc; reflexivity.
Qed.

Lemma generateScriptTag_with_host (o : EntrolyticsOptions) (x : string) :
  generateScriptTag (with_host (Some x) o) =
    "<script src=" +:+ dq +:+ (strip_trailing_slash x +:+ scriptPath o) +:+ dq +:+
    " data-website-id=" +:+ dq +:+ websiteId o +:+ dq +:+ " defer" +:+ tag_tail o.
Proof. exact (generateScriptTag_fixed_attributes (with_host (Some x) o)). Qed.

(** C6, as amended.  One trailing slash is stripped, and no more.  For a
    host [h] that does not itself end in a slash, the hosts [h/] and [h]
    give the same script tag, whose [src] is [h] followed by the script
    path, and the same configuration snippet, whose [host] field is [h],
    whatever the other options; the host [h//] gives [h/] in both places.
    When [h] is not empty the factory logs, throws or returns the same for
    [h/] and for [h], and the scripts of a returned integration are that
    snippet and that tag. *)
Theorem host_trailing_slash_irrelevant (h : string) :
  ends_with_slash h = false ->
  let tag := fun (o : EntrolyticsOptions) (x rest : string) =>
    "<script src=" +:+ dq +:+ (x +:+ scriptPath o) +:+ dq +:+
    " data-website-id=" +:+ dq +:+ websiteId o +:+ dq +:+ " defer" +:+ rest in
  let snippet := fun w x : string =>
    nl +:+ "          <script>" +:+
    nl +:+ "            window.__entrolytics_config = {" +:+
    nl +:+ "              websiteId: " +:+ dq +:+ w +:+ dq +:+ "," +:+
    nl +:+ "              host: " +:+ dq +:+ x +:+ dq +:+
    nl +:+ "            };" +:+
    nl +:+ "          </script>" +:+
    nl +:+ "        " in
  (forall o : EntrolyticsOptions,
      exists rest,
        generateScriptTag (with_host (Some (h +:+ "/")) o) = tag o h rest /\
        generateScriptTag (with_host (Some h) o) = tag o h rest /\
        generateScriptTag (with_host (Some ((h +:+ "/") +:+ "/")) o) =
          tag o (h +:+ "/") rest) /\
  (forall w : string,
      configScript w (h +:+ "/") = snippet w h /\
      configScript w h = snippet w h /\
      configScript w ((h +:+ "/") +:+ "/") = snippet w (h +:+ "/")) /\
  (h <> EmptyString ->
   forall (p : PartialOptions) (e : option ImportMetaEnv),
     entrolytics (with_p_host (Some (h +:+ "/")) p) e =
     entrolytics (with_p_host (Some h) p) e /\
     forall log integration,
       entrolytics (with_p_host (Some h) p) e = (log, Return integration) ->
       exists w rest page,
         w <> EmptyString /\
         astro_config_setup integration =
           [ mkInject "head-inline" (snippet w h);
             mkInject "head-inline"
               (tag (finalOptions (with_p_host (Some h) p) w h) h rest);
             page ]).
Proof.
  intros Hno tag snippet.
  assert (Hid : strip_trailing_slash h = h) by now apply strip_trailing_slash_id.
  assert (Hs : strip_trailing_slash (h +:+ "/") = strip_trailing_slash h).
  { now rewrite strip_trailing_slash_snoc, Hid. }
  split.
  { intros o. exists (tag_tail o). unfold tag.
    rewrite !generateScriptTag_with_host, !strip_trailing_slash_snoc, Hid.
    repeat split. }
  split.
  { intros w. unfold snippet, configScript.
    rewrite !strip_trailing_slash_snoc, Hid. repeat split. }
  intros Hne p e.
  assert (Heq : entrolytics (with_p_host (Some (h +:+ "/")) p) e =
                entrolytics (with_p_host (Some h) p) e).
  { unfold entrolytics. cbv zeta.
    assert (Hs1 : h +:+ "/" <> EmptyString) by (destruct h; discriminate).
    rewrite !resolve_host_explicit by assumption.
    change (resolve_websiteId (with_p_host (Some (h +:+ "/")) p) (env_or_empty e))
      with (resolve_websiteId (with_p_host (Some h) p) (env_or_empty e)).
    destruct (negb (truthy_string
                      (resolve_websiteId (with_p_host (Some h) p) (env_or_empty e))));
      [reflexivity|].
    set (w := with_default EmptyString _).
    f_equal. f_equal. f_equal. unfold config_setup_hook.
    rewrite (configScript_host_only _ _ _ Hs).
    f_equal. f_equal. f_equal.
    exact (generateScriptTag_host_only (finalOptions p w h) _ _ Hs). }
  split; [exact Heq|].
  intros log integration Hrun.
  destruct (entrolytics_cases (with_p_host (Some h) p) e)
    as [[_ Hthrow] | [_ (w & _ & Hw & Hret)]].
  { rewrite Hthrow in Hrun. discriminate Hrun. }
  rewrite Hret in Hrun. injection Hrun as <- <-.
  rewrite (resolve_host_explicit p (env_or_empty e) h Hne).
  exists w, (tag_tail (finalOptions (with_p_host (Some h) p) w h)), (mkInject "page" pageScript).
  split; [exact Hw|].
  unfold config_setup_hook. cbn [astro_config_setup].
  f_equal.
  { f_equal. unfold snippet, configScript. now rewrite Hid. }
  f_equal. f_equal.
  rewrite (generateScriptTag_fixed_attributes (finalOptions (with_p_host (Some h) p) w h)).
  unfold tag, scriptUrl. cbn [host finalOptions with_default]. now rewrite Hid.
Qed.

Lemma host_trailing_slash_irrelevant_witness :
  generateScriptTag (with_host (Some ("https://x.com" +:+ "/")) (only_websiteId "abc")) =
  generateScriptTag (with_host (Some "https://x.com") (only_websiteId "abc")) /\
  configScript "abc" ("https://x.com" +:+ "/") = configScript "abc" "https://x.com".
Proof.
  pose proof (host_trailing_slash_irrelevant "https://x.com" eq_refl) as H.
  destruct H as (Htag & Hcfg & _).
  destruct (Htag (only_websiteId "abc")) as (rest & H1 & H2 & _).
  destruct (Hcfg "abc") as (H3 & H4 & _).
  split; [now rewrite H1, H2 | now rewrite H3, H4].
Defined.

(** C6, as stated, fails.  The host [/] ends in a single slash and the
    empty host is the same host without it.  The factory keeps the explicit
    [/] and strips it to nothing, while it takes an explicit empty host for
    none and falls back to the default one: the rendered tags and snippets
    differ. *)
Lemma entrolytics_slash_host_vs_empty_host :
  let p := with_p_websiteId (Some "abc") empty_options in
  EmptyString +:+ "/" = "/" /\
  ends_with_slash EmptyString = false /\
  entrolytics (with_p_host (Some "/") p) None =
    ([], Return (mkIntegration "@entrolytics/astro"
                   [ mkInject "head-inline" (configScript "abc" EmptyString);
                     mkInject "head-inline"
                       ("<script src=" +:+ dq +:+ "/script-edge.js" +:+ dq +:+
                        " data-website-id=" +:+ dq +:+ "abc" +:+ dq +:+
                        " defer data-track-outbound-links=" +:+ dq +:+ "true" +:+ dq +:+
                        "></script>");
                     mkInject "page" pageScript ])) /\
  entrolytics (with_p_host (Some EmptyString) p) None =
    ([], Return (mkIntegration "@entrolytics/astro"
                   [ mkInject "head-inline" (configScript "abc" "https://entrolytics.click");
                     mkInject "head-inline"
                       ("<script src=" +:+ dq +:+
                        "https://entrolytics.click/script-edge.js" +:+ dq +:+
                        " data-website-id=" +:+ dq +:+ "abc" +:+ dq +:+
                        " defer data-track-outbound-links=" +:+ dq +:+ "true" +:+ dq +:+
                        "></script>");
                     mkInject "page" pageScript ])) /\
  entrolytics (with_p_host (Some "/") p) None <>
  entrolytics (with_p_host (Some EmptyString) p) None.
Proof.
  intros p.
  split; [reflexivity|]. split; [reflexivity|].
  split; [reflexivity|]. split; [reflexivity|].
  intros H. vm_compute in H. discriminate H.
Qed.

(** X4.  Whenever the factory returns, it has logged nothing and the hook
    of the integration injects three scripts in this order: the
    configuration snippet and the script tag at [head-inline], then the
    page script at [page].  The snippet holds the resolved identifier as
    [websiteId] and the resolved host, stripped of one trailing slash, as
    [host]; the tag's [src] is that same stripped host followed by the
    script path, and its [data-website-id] is that same identifier. *)
Theorem entrolytics_integration_shape (p : PartialOptions) (e : option ImportMetaEnv)
    (log : list ConsoleCall) (integration : AstroIntegration) :
  entrolytics p e = (log, Return integration) ->
  log = [] /\
  name integration = "@entrolytics/astro" /\
  exists w h rest,
    w <> EmptyString /\ h <> EmptyString /\
    resolve_websiteId p (env_or_empty e) = Some w /\
    resolve_host p (env_or_empty e) = h /\
    astro_config_setup integration =
      [ mkInject "head-inline"
          (nl +:+ "          <script>" +:+
           nl +:+ "            window.__entrolytics_config = {" +:+
           nl +:+ "              websiteId: " +:+ dq +:+ w +:+ dq +:+ "," +:+
           nl +:+ "              host: " +:+ dq +:+ strip_trailing_slash h +:+ dq +:+
           nl +:+ "            };" +:+
           nl +:+ "          </script>" +:+
           nl +:+ "        ");
        mkInject "head-inline"
          ("<script src=" +:+ dq +:+
           (strip_trailing_slash h +:+
            (if with_default true (p_useEdgeRuntime p)
             then "/script-edge.js" else "/script.js"))
           +:+ dq +:+ " data-website-id=" +:+ dq +:+ w +:+ dq +:+ " defer" +:+ rest);
        mkInject "page"
          (nl +:+ "          document.addEventListener('astro:page-load', () => {" +:+
           nl +:+ "            if (typeof window.entrolytics !== 'undefined' && window.entrolytics.track) {" +:+
           nl +:+ "              // The script handles this automatically with data-auto-track" +:+
           nl +:+ "              // This is a fallback for View Transitions" +:+
           nl +:+ "            }" +:+
           nl +:+ "          });" +:+
           nl +:+ "        ") ].
Proof.
  intros Hrun.
  destruct (entrolytics_cases p e) as [[_ Hthrow] | [_ (w & Hres & Hw & Hret)]].
  - rewrite Hthrow in Hrun. discriminate Hrun.
  - rewrite Hret in Hrun. injection Hrun as <- <-.
    split; [reflexivity|]. split; [reflexivity|].
    set (h := resolve_host p (env_or_empty e)).
    exists w, h, (tag_tail (finalOptions p w h)).
    split; [exact Hw|].
    split; [apply resolve_host_precedence|].
    split; [exact Hres|].
    split; [reflexivity|].
    cbn [astro_config_setup]. unfold config_setup_hook.
    rewrite (generateScriptTag_fixed_attributes (finalOptions p w h)).
    reflexivity.
Qed.

Lemma entrolytics_integration_shape_witness :
  let integration :=
    mkIntegration "@entrolytics/astro"
      (config_setup_hook
         (finalOptions (with_p_websiteId (Some "site-1") empty_options)
            "site-1" DEFAULT_HOST)
         "site-1" DEFAULT_HOST) in
  exists w h rest,
    resolve_host (with_p_websiteId (Some "site-1") empty_options) (env_or_empty None) = h /\
    nth_error (astro_config_setup integration) 1 =
      Some (mkInject "head-inline"
              ("<script src=" +:+ dq +:+ (strip_trailing_slash h +:+ "/script-edge.js")
               +:+ dq +:+ " data-website-id=" +:+ dq +:+ w +:+ dq +:+ " defer" +:+ rest)).
Proof.
  intros integration.
  destruct (entrolytics_integration_shape
              (with_p_websiteId (Some "site-1") empty_options) None [] integration eq_refl)
    as (_ & _ & w & h & rest & _ & _ & _ & Hh & Hhook).
  exists w, h, rest. split; [exact Hh|].
  rewrite Hhook. reflexivity.
Defined.

(** X5.  The option [cacheScript] changes nothing: the script tag is the
    same whatever its value, and so is all that the factory logs, throws or
    returns. *)
Theorem cacheScript_has_no_effect (c : option bool) :
  (forall o : EntrolyticsOptions,
      generateScriptTag (with_cacheScript c o) = generateScriptTag o) /\
  (forall (p : PartialOptions) (e : option ImportMetaEnv),
      entrolytics (with_p_cacheScript c p) e = entrolytics p e).
Proof.
  split.
  - intros o. reflexivity.
  - intros p e. unfold entrolytics. cbv zeta.
    change (resolve_websiteId (with_p_cacheScript c p) (env_or_empty e))
      with (resolve_websiteId p (env_or_empty e)).
    destruct (negb (truthy_string (resolve_websiteId p (env_or_empty e)))); reflexivity.
Qed.

Lemma join_comma_cons (a b : string) (ds : list string) :
  join "," ((a +:+ "," +:+ b) :: ds) = join "," (a :: b :: ds).
Proof.
  unfold join. cbn [String.concat].
  destruct ds as [|d ds]; [reflexivity|].
  now rewrite !append_assoc.
Qed.

(** X6.  Domains are joined with commas and not escaped: a domain entry
    that holds a comma renders the same tag as the two entries it would
    split into. *)
Theorem domains_comma_not_escaped (o : EntrolyticsOptions) (a b : string)
    (ds : list string) :
  generateScriptTag (with_domains (Some ((a +:+ "," +:+ b) :: ds)) o) =
  generateScriptTag (with_domains (Some (a :: b :: ds)) o).
Proof.
  unfold generateScriptTag, attributes, with_domains.
  cbn [host websiteId autoTrack trackOutboundLinks trackFileDownloads respectDnt domains
       useEdgeRuntime tag excludeSearch excludeHash domains_present with_default].
  unfold attr_domains. now rewrite join_comma_cons.
Qed.

(** ** Further properties of the dispatcher *)

(** X7.  In a browser where the tracker shows up at the [k]-th poll,
    [waitForTracker] sets [k] timers of 100 ms, one per miss, then runs the
    callback once with the tracker there, and sets no timer after it;
    until then, with [k] polls or fewer done, the callback has not run. *)
Theorem waitForTracker_runs_callback_once (w : Window) (tracker : nat -> bool) (k : nat)
    (callback : bool -> list Effect) :
  first_present tracker k ->
  (forall extra,
      waitForTracker (S k + extra) (Some w) tracker callback =
        Some (repeat (SetTimeout 100) k ++ callback true)%list) /\
  (forall fuel, fuel <= k -> waitForTracker fuel (Some w) tracker callback = None).
Proof.
  intros [Hk Hbefore]. split.
  - intros extra. unfold waitForTracker.
    exact (tryExecute_from tracker callback k extra 0 Hk Hbefore).
  - intros fuel Hfuel. unfold waitForTracker. apply tryExecute_not_yet.
    intros i Hi. apply Hbefore. cbn [Nat.add]. lia.
Qed.

Lemma waitForTracker_runs_callback_once_witness :
  waitForTracker 4 (Some (mkWindow None "https://x.com/" "/")) (fun n => Nat.leb 2 n)
    (fun present => optional_identify present ∅) =
  Some [SetTimeout 100; SetTimeout 100; TrackerIdentify ∅].
Proof.
  assert (Hfirst : first_present (fun n => Nat.leb 2 n) 2).
  { split; [reflexivity|]. intros j Hj. destruct j as [|[|j]]; [reflexivity|reflexivity|lia]. }
  exact (proj1 (waitForTracker_runs_callback_once (mkWindow None "https://x.com/" "/")
                  _ 2 (fun present => optional_identify present ∅) Hfirst) 1).
Defined.

(** X8.  Outside a browser [waitForTracker] ends at once and never runs
    the callback, even if a tracker were there.  In a browser where the
    tracker never shows up the polling has no end: whatever the number of
    polls, the callback has not run. *)
Theorem waitForTracker_without_tracker (tracker : nat -> bool)
    (callback : bool -> list Effect) :
  (forall fuel, waitForTracker fuel None tracker callback = Some []) /\
  ((forall i, tracker i = false) ->
   forall fuel w, waitForTracker fuel (Some w) tracker callback = None).
Proof.
  split; [reflexivity|].
  intros Hnever fuel w. unfold waitForTracker. apply tryExecute_not_yet.
  intros i _. apply Hnever.
Qed.

Lemma waitForTracker_without_tracker_witness :
  waitForTracker 50 (Some (mkWindow None "https://x.com/" "/")) (fun _ => false)
    (fun present => optional_identify present ∅) = None.
Proof.
  apply (proj2 (waitForTracker_without_tracker (fun _ => false)
                  (fun present => optional_identify present ∅))).
  reflexivity.
Defined.

(** X9.  Once the tracker is there, [trackEvent] calls its [track] once
    with the event name and the data as given (no data stays no data), and
    [identify] calls its [identify] once with the data as given. *)
Theorem trackEvent_identify_pass_through (w : Window) (tracker : nat -> bool)
    (k extra : nat) (eventName : string) (eventData : option (gmap string EventValue))
    (data : gmap string EventValue) :
  first_present tracker k ->
  trackEvent (S k + extra) (Some w) tracker eventName eventData =
    Some (repeat (SetTimeout 100) k ++ [TrackerTrack (ArgName eventName) eventData])%list /\
  identify (S k + extra) (Some w) tracker data =
    Some (repeat (SetTimeout 100) k ++ [TrackerIdentify data])%list.
Proof.
  intros [Hk Hbefore]. unfold trackEvent, identify, waitForTracker.
  rewrite !(tryExecute_from tracker _ k extra 0 Hk Hbefore). split; reflexivity.
Qed.

Lemma trackEvent_identify_pass_through_witness :
  trackEvent 1 (Some (mkWindow None "https://x.com/" "/")) (fun _ => true)
    "signup_click" None =
  Some [TrackerTrack (ArgName "signup_click") None].
Proof.
  assert (Hfirst : first_present (fun _ : nat => true) 0).
  { split; [reflexivity|]. intros j Hj. lia. }
  exact (proj1 (trackEvent_identify_pass_through (mkWindow None "https://x.com/" "/")
                  _ 0 0 "signup_click" None ∅ Hfirst)).
Defined.





Lemma pageView_payload_lookup (url referrer : option string) :
  pageView_payload url referrer !! "url" =
    (if truthy_string url then VString <$> url else None) /\
  pageView_payload url referrer !! "referrer" =
    (if truthy_string referrer then VString <$> referrer else None) /\
  (forall key, key <> "url" -> key <> "referrer" ->
               pageView_payload url referrer !! key = None).
Proof.
  unfold pageView_payload. cbv zeta.
  destruct url as [[|c1 u]|], referrer as [[|c2 r]|]; cbn [truthy_string String.eqb negb
    with_default fmap option_fmap option_map];
    (split; [|split; [|intros key H1 H2]]);
    rewrite ?lookup_insert_eq, ?lookup_insert_ne, ?lookup_empty by congruence;
    try reflexivity.
Qed.

(** X12.  Once the tracker is there, [trackPageView] calls [track] once
    with one object and no second argument.  The object has [url] and
    [referrer] when they are given and not empty, and no other key: an
    empty string is left out as an absent one is. *)
Theorem trackPageView_payload (w : Window) (tracker : nat -> bool) (k extra : nat)
    (url referrer : option string) :
  first_present tracker k ->
  let payload := pageView_payload url referrer in
  trackPageView (S k + extra) (Some w) tracker url referrer =
    Some (repeat (SetTimeout 100) k ++ [TrackerTrack (ArgObject payload) None])%list /\
  (forall u, url = Some u -> u <> EmptyString -> payload !! "url" = Some (VString u)) /\
  (absent_or_empty url -> payload !! "url" = None) /\
  (forall u, referrer = Some u -> u <> EmptyString ->
             payload !! "referrer" = Some (VString u)) /\
  (absent_or_empty referrer -> payload !! "referrer" = None) /\
  (forall key, key <> "url" -> key <> "referrer" -> payload !! key = None).
Proof.
  intros [Hk Hbefore] payload.
  destruct (pageView_payload_lookup url referrer) as (Hu & Hr & Hother).
  split.
  { unfold trackPageView, waitForTracker.
    rewrite (tryExecute_from tracker _ k extra 0 Hk Hbefore). reflexivity. }
  split.
  { intros u -> Hne. unfold payload. rewrite Hu, (truthy_string_some u Hne). reflexivity. }
  split.
  { intros Ha. apply truthy_string_false in Ha. unfold payload. now rewrite Hu, Ha. }
  split.
  { intros u -> Hne. unfold payload. rewrite Hr, (truthy_string_some u Hne). reflexivity. }
  split.
  { intros Ha. apply truthy_string_false in Ha. unfold payload. now rewrite Hr, Ha. }
  exact Hother.
Qed.

Lemma trackPageView_payload_witness :
  pageView_payload (Some "/pricing") (Some EmptyString) !! "url" = Some (VString "/pricing") /\
  pageView_payload (Some "/pricing") (Some EmptyString) !! "referrer" = None.
Proof.
  assert (Hfirst : first_present (fun _ : nat => true) 0).
  { split; [reflexivity|]. intros j Hj. lia. }
  destruct (trackPageView_payload (mkWindow None "https://x.com/" "/") _ 0 0
              (Some "/pricing") (Some EmptyString) Hfirst)
    as (_ & Hurl & _ & _ & Href & _).
  split.
  - apply (Hurl "/pricing"); [reflexivity|discriminate].
  - apply Href. right. reflexivity.
Defined.

Lemma trackVital_with_config (w : Window) (c : EntrolyticsConfig)
    (network : string -> Completion unit) (data : WebVitalData) :
  entrolytics_config w = Some c ->
  writable (attribution data) ->
  trackVital (Some w) network data =
    (Fetch (cfg_host c +:+ "/api/collect/vitals")
       (post (VitalsBody
                (mkVitalPayload (cfg_websiteId c) (metric data) (value data) (rating data)
                   (delta data) (id data) (navigationType data) (attribution data)
                   (location_href w) (location_pathname w))))
     :: match network (cfg_host c +:+ "/api/collect/vitals") with
        | Return _ => []
        | Throw err => [ConsoleError "[Entrolytics] Failed to track vital:" err]
        end,
     Return tt).
Proof.
  intros Hc Hw. unfold trackVital, getConfig. rewrite Hc.
  unfold try_catch, await_post, await_fetch, JSON_stringify. cbn [vp_attribution].
  destruct (attribution data) as [[o|err]|]; [|contradiction|];
    destruct (network _) as [[]|err]; reflexivity.
Qed.

Lemma trackVital_unwritable (w : Window) (c : EntrolyticsConfig)
    (network : string -> Completion unit) (data : WebVitalData) (err : string) :
  entrolytics_config w = Some c ->
  attribution data = Some (Unwritable err) ->
  trackVital (Some w) network data =
    ([ConsoleError "[Entrolytics] Failed to track vital:" err], Return tt).
Proof.
  intros Hc Ha. unfold trackVital, getConfig. rewrite Hc.
  unfold try_catch, await_post, JSON_stringify. cbn [vp_attribution].
  rewrite Ha. reflexivity.
Qed.

Lemma trackFormEvent_with_config (w : Window) (c : EntrolyticsConfig)
    (network : string -> Completion unit) (data : FormEventData) :
  entrolytics_config w = Some c ->
  trackFormEvent (Some w) network data =
    (Fetch (cfg_host c +:+ "/api/collect/forms")
       (post (FormsBody
                (mkFormPayload (cfg_websiteId c) (eventType data) (formId data)
                   (formName data)
                   (if truthy_string (urlPath data)
                    then with_default EmptyString (urlPath data)
                    else location_pathname w)
                   (fieldName data) (fieldType data) (fieldIndex data)
                   (timeOnField data) (timeSinceStart data) (errorMessage data)
                   (success data))))
     :: match network (cfg_host c +:+ "/api/collect/forms") with
        | Return _ => []
        | Throw err => [ConsoleError "[Entrolytics] Failed to track form event:" err]
        end,
     Return tt).
Proof.
  intros Hc. unfold trackFormEvent, getConfig. rewrite Hc.
  unfold try_catch, await_post, await_fetch, JSON_stringify.
  destruct (network _) as [[]|err]; reflexivity.
Qed.

(** X13.  With the configuration present [trackVital] never throws and
    logs no warning.  When the attribution is absent or can be written as
    JSON it makes exactly one request, a keep-alive JSON [POST] to
    [/api/collect/vitals] under the configured host, for the configured
    website and the current page; if that request fails the error is logged
    once, after the request.  When the attribution cannot be written as
    JSON the error is logged once and no request is made. *)
Theorem trackVital_posts_or_logs (w : Window) (c : EntrolyticsConfig)
    (network : string -> Completion unit) (data : WebVitalData) :
  entrolytics_config w = Some c ->
  let url := cfg_host c +:+ "/api/collect/vitals" in
  snd (trackVital (Some w) network data) = Return tt /\
  ~ In (ConsoleWarn CONFIG_NOT_FOUND) (fst (trackVital (Some w) network data)) /\
  (forall err,
      attribution data = Some (Unwritable err) ->
      fst (trackVital (Some w) network data) =
        [ConsoleError "[Entrolytics] Failed to track vital:" err]) /\
  (writable (attribution data) ->
   exists (payload : VitalPayload) (after : list Effect),
     fst (trackVital (Some w) network data) =
       Fetch url (mkInit "POST" "application/json" (VitalsBody payload) true) :: after /\
     vp_website payload = cfg_websiteId c /\
     vp_metric payload = metric data /\
     vp_value payload = value data /\
     vp_url payload = location_href w /\
     vp_path payload = location_pathname w /\
     (network url = Return tt -> after = []) /\
     (forall err, network url = Throw err ->
                  after = [ConsoleError "[Entrolytics] Failed to track vital:" err])).
Proof.
  intros Hc url.
  split; [apply trackVital_returns|].
  split.
  { destruct (attribution data) as [[o|err]|] eqn:Ea.
    - rewrite (trackVital_with_config w c network data Hc) by (now rewrite Ea).
      cbn [fst]. intros [H|H]; [discriminate H|].
      destruct (network _) as [[]|e]; [destruct H | destruct H as [H|[]]; discriminate H].
    - rewrite (trackVital_unwritable w c network data err Hc Ea).
      intros [H|[]]. discriminate H.
    - rewrite (trackVital_with_config w c network data Hc) by (now rewrite Ea).
      cbn [fst]. intros [H|H]; [discriminate H|].
      destruct (network _) as [[]|e]; [destruct H | destruct H as [H|[]]; discriminate H]. }
  split.
  { intros err Ha. now rewrite (trackVital_unwritable w c network data err Hc Ha). }
  intros Hw. eexists. eexists. split.
  - rewrite (trackVital_with_config w c network data Hc Hw). reflexivity.
  - cbn [vp_website vp_metric vp_value vp_url vp_path]. fold url.
    repeat (split; [reflexivity|]).
    split; [intros ->; reflexivity | intros err ->; reflexivity].
Qed.

Lemma trackVital_posts_or_logs_witness :
  let w := mkWindow (Some (mkConfig "site-1" "https://x.com")) "https://shop.example/a" "/a" in
  fst (trackVital (Some w) (fun _ => Return tt)
         (mkVital CLS 0.25%float poor None None None (Some (Unwritable "cyclic")))) =
    [ConsoleError "[Entrolytics] Failed to track vital:" "cyclic"] /\
  exists (payload : VitalPayload) (after : list Effect),
    fst (trackVital (Some w) (fun _ => Throw "offline")
           (mkVital CLS 0.25%float poor None None None None)) =
      Fetch "https://x.com/api/collect/vitals"
        (mkInit "POST" "application/json" (VitalsBody payload) true) :: after /\
    after = [ConsoleError "[Entrolytics] Failed to track vital:" "offline"].
Proof.
  intros w. split.
  - destruct (trackVital_posts_or_logs w (mkConfig "site-1" "https://x.com")
                (fun _ => Return tt)
                (mkVital CLS 0.25%float poor None None None (Some (Unwritable "cyclic")))
                eq_refl) as (_ & _ & Hlog & _).
    apply Hlog. reflexivity.
  - destruct (trackVital_posts_or_logs w (mkConfig "site-1" "https://x.com")
                (fun _ => Throw "offline")
                (mkVital CLS 0.25%float poor None None None None) eq_refl)
      as (_ & _ & _ & Hpost).
    destruct (Hpost I) as (payload & after & Hrun & _ & _ & _ & _ & _ & _ & Hfail).
    exists payload, after. split; [exact Hrun|]. apply Hfail. reflexivity.
Defined.

(** X14.  With the configuration present [trackFormEvent] makes exactly one
    request, a keep-alive JSON [POST] to [/api/collect/forms] under the
    configured host, with the fields of the event.  The path sent is the
    event's [urlPath] when it is given and not empty, and the path of the
    current page otherwise.  A failing request is logged once and never
    thrown. *)
Theorem trackFormEvent_posts_once (w : Window) (c : EntrolyticsConfig)
    (network : string -> Completion unit) (data : FormEventData) :
  entrolytics_config w = Some c ->
  let url := cfg_host c +:+ "/api/collect/forms" in
  exists (payload : FormPayload) (after : list Effect),
    trackFormEvent (Some w) network data =
      (Fetch url (mkInit "POST" "application/json" (FormsBody payload) true) :: after,
       Return tt) /\
    fp_website payload = cfg_websiteId c /\
    payload_of_event payload data /\
    (forall u, urlPath data = Some u -> u <> EmptyString -> fp_urlPath payload = u) /\
    (absent_or_empty (urlPath data) -> fp_urlPath payload = location_pathname w) /\
    (network url = Return tt -> after = []) /\
    (forall err, network url = Throw err ->
                 after = [ConsoleError "[Entrolytics] Failed to track form event:" err]).
Proof.
  intros Hc url. eexists. eexists. split.
  - rewrite (trackFormEvent_with_config w c network data Hc). reflexivity.
  - cbn [fp_website fp_urlPath]. fold url.
    split; [reflexivity|].
    split; [unfold payload_of_event; cbn; repeat split|].
    split; [intros u -> Hne; now rewrite (truthy_string_some u Hne)|].
    split; [intros Ha; apply truthy_string_false in Ha; now rewrite Ha|].
    split; [intros ->; reflexivity | intros err ->; reflexivity].
Qed.

Lemma trackFormEvent_posts_once_witness :
  exists (payload : FormPayload) (after : list Effect),
    trackFormEvent
      (Some (mkWindow (Some (mkConfig "site-1" "https://x.com")) "https://shop.example/a" "/a"))
      (fun _ => Return tt)
      (mkFormEvent submit "contact-form" None (Some EmptyString) None None None None None
         None (Some true)) =
      (Fetch "https://x.com/api/collect/forms"
         (mkInit "POST" "application/json" (FormsBody payload) true) :: after,
       Return tt) /\
    fp_urlPath payload = "/a" /\ after = [].
Proof.
  destruct (trackFormEvent_posts_once
              (mkWindow (Some (mkConfig "site-1" "https://x.com"))
                 "https://shop.example/a" "/a")
              (mkConfig "site-1" "https://x.com") (fun _ => Return tt)
              (mkFormEvent submit "contact-form" None (Some EmptyString) None None None
                 None None None (Some true)) eq_refl)
    as (payload & after & Hrun & _ & _ & _ & Hpath & Hok & _).
  exists payload, after. split; [exact Hrun|]. split.
  - apply Hpath. right. reflexivity.
  - apply Hok. reflexivity.
Defined.

(** The calls made are the leading ones that the module exports, in the
    order of the source, and the sequence ends without an error exactly when
    none is lacking. *)
Lemma subscribe_each_leading (exports : VitalHook -> bool)
    (calls : list (VitalHook * (Metric -> WebVitalData))) :
  let es := fst (subscribe_each exports calls) in
  map fst (subscriptions es) = leading exports (map fst calls) /\
  length (subscriptions es) = length es /\
  (forall h f, In (h, f) (subscriptions es) -> In (h, f) calls) /\
  (snd (subscribe_each exports calls) = Return tt <->
   forall h, In h (map fst calls) -> exports h = true).
Proof.
  induction calls as [|[h f] calls IH]; cbn [subscribe_each map fst leading].
  - cbn. split; [reflexivity|]. split; [reflexivity|]. split; [intros h f []|].
    split; [intros _ h []|reflexivity].
  - destruct (exports h) eqn:Eh.
    + destruct (subscribe_each exports calls) as [es c] eqn:Es.
      cbn [fst snd] in IH. cbn [fst snd subscriptions map length].
      destruct IH as (Hl & Hn & Hin & Hret).
      split; [now rewrite Hl|]. split; [now rewrite Hn|]. split.
      * intros h' f' [H|H]; [left; exact H | right; now apply Hin].
      * rewrite Hret. split.
        -- intros Hall h' [<-|H']; [exact Eh | now apply Hall].
        -- intros Hall h' H'. apply Hall. now right.
    + cbn. split; [reflexivity|]. split; [reflexivity|]. split; [intros h' f' []|].
      split; [discriminate|].
      intros Hall. specialize (Hall h (or_introl eq_refl)). congruence.
Qed.

Lemma subscriptions_debug (made : list InitEffect) (message : string) :
  subscriptions (made ++ [ConsoleDebug message]) = subscriptions made.
Proof.
  induction made as [|[h f|msg] made IH]; cbn; [reflexivity| |exact IH].
  now rewrite IH.
Qed.

Lemma vital_calls_forward (hook : VitalHook) (forwards : Metric -> WebVitalData) (m : Metric) :
  In (hook, forwards) vital_calls ->
  forwards m =
    mkVital (metric_of_hook hook) (m_value m) (m_rating m) (Some (m_delta m))
      (Some (m_id m)) (Some (m_navigationType m)) (m_attribution m).
Proof.
  unfold vital_calls. cbn [In].
  intros [H|[H|[H|[H|[H|[]]]]]]; injection H as <- <-; reflexivity.
Qed.

(** X15.  [initWebVitals] does nothing outside a browser, and only logs a
    debug message when [web-vitals] cannot be imported.  When the import
    resolves it calls [onLCP], [onINP], [onCLS], [onFCP], [onTTFB] in this
    order, once each, up to the first one that the module lacks: with all
    five exported it makes the five subscriptions and logs nothing; with one
    lacking it logs the debug message after the subscriptions made before
    it, none if [onLCP] is the one.  Every callback hands to [trackVital] the
    metric under the name of its own subscription, with the value, rating,
    delta, id, navigation type and attribution it was given; in a configured
    browser, and when that attribution can be written as JSON, the value is
    then posted under that name. *)
Theorem initWebVitals_subscribes_in_order (w : Window) :
  (forall web_vitals, initWebVitals None web_vitals = []) /\
  initWebVitals (Some w) None = [ConsoleDebug WEB_VITALS_MISSING] /\
  forall exports : VitalHook -> bool,
    let es := initWebVitals (Some w) (Some exports) in
    map fst (subscriptions es) = leading exports [onLCP; onINP; onCLS; onFCP; onTTFB] /\
    ((forall h, exports h = true) ->
     map fst (subscriptions es) = [onLCP; onINP; onCLS; onFCP; onTTFB] /\
     length es = 5) /\
    ((exists h, exports h = false) ->
     exists made,
       es = (made ++ [ConsoleDebug WEB_VITALS_MISSING])%list /\
       length (subscriptions made) = length made /\
       length made < 5) /\
    (forall hook forwards (m : Metric),
        In (hook, forwards) (subscriptions es) ->
        forwards m =
          mkVital (metric_of_hook hook) (m_value m) (m_rating m) (Some (m_delta m))
            (Some (m_id m)) (Some (m_navigationType m)) (m_attribution m) /\
        forall c network,
          entrolytics_config w = Some c ->
          writable (m_attribution m) ->
          exists payload after,
            fst (trackVital (Some w) network (forwards m)) =
              Fetch (cfg_host c +:+ "/api/collect/vitals") (post (VitalsBody payload))
              :: after /\
            vp_metric payload = metric_of_hook hook /\
            vp_value payload = m_value m).
Proof.
  split; [reflexivity|]. split; [reflexivity|].
  intros exports es.
  pose proof (subscribe_each_leading exports vital_calls) as (Hlead & Hlen & Hin & Hret).
  assert (Hsubs : subscriptions es =
                  subscriptions (fst (subscribe_each exports vital_calls))).
  { subst es. unfold initWebVitals.
    destruct (subscribe_each exports vital_calls) as [made [[]|err]]; cbn [fst];
      [reflexivity|].
    apply subscriptions_debug. }
  assert (Hall : forall h, In h (map fst vital_calls)).
  { intros []; cbn; auto 10. }
  split; [rewrite Hsubs; exact Hlead|].
  split.
  { intros Hexp.
    assert (Hr : snd (subscribe_each exports vital_calls) = Return tt).
    { apply (proj2 Hret). intros h _. apply Hexp. }
    split.
    - rewrite Hsubs, Hlead. cbn. rewrite !Hexp. reflexivity.
    - subst es. unfold initWebVitals.
      destruct (subscribe_each exports vital_calls) as [made c] eqn:Es.
      cbn [fst snd] in *. rewrite Hr. rewrite <- Hlen.
      rewrite <- (length_map fst), Hlead. cbn. rewrite !Hexp. reflexivity. }
  split.
  { intros [h Hh].
    assert (Hr : snd (subscribe_each exports vital_calls) <> Return tt).
    { intros Hr. pose proof (proj1 Hret Hr h (Hall h)). congruence. }
    subst es. unfold initWebVitals.
    destruct (subscribe_each exports vital_calls) as [made [[]|err]] eqn:Es;
      cbn [fst snd] in *; [congruence|].
    exists made. split; [reflexivity|]. split; [exact Hlen|].
    rewrite <- Hlen, <- (length_map fst), Hlead.
    assert (Hcases : forall b1 b2 b3 b4 b5 : bool,
               (b1 && b2 && b3 && b4 && b5 = false)%bool ->
               length ((if b1 then onLCP :: (if b2 then onINP :: (if b3 then onCLS ::
                        (if b4 then onFCP :: (if b5 then [onTTFB] else []) else [])
                        else []) else []) else [])) < 5).
    { intros [] [] [] [] []; cbn; intros H; try discriminate H; lia. }
    apply (Hcases (exports onLCP) (exports onINP) (exports onCLS) (exports onFCP)
             (exports onTTFB)).
    destruct h; rewrite Hh; rewrite ?andb_false_r; reflexivity. }
  intros hook forwards m Hsub.
  rewrite Hsubs in Hsub. apply Hin in Hsub.
  pose proof (vital_calls_forward hook forwards m Hsub) as Hf.
  split; [exact Hf|].
  intros c network Hc Hw. eexists. eexists. split.
  - rewrite (trackVital_with_config w c network (forwards m) Hc)
      by (rewrite Hf; exact Hw).
    cbn [fst]. reflexivity.
  - cbn [vp_metric vp_value]. rewrite Hf. split; reflexivity.
Qed.

Lemma initWebVitals_subscribes_in_order_witness :
  let w := mkWindow (Some (mkConfig "site-1" "https://x.com")) "https://shop.example/a" "/a" in
  let exports := fun h : VitalHook => match h with onINP => false | _ => true end in
  exists made,
    initWebVitals (Some w) (Some exports) =
      (made ++ [ConsoleDebug WEB_VITALS_MISSING])%list /\
    length (subscriptions made) = length made /\
    map fst (subscriptions (initWebVitals (Some w) (Some exports))) = [onLCP].
Proof.
  intros w exports.
  destruct (initWebVitals_subscribes_in_order w) as (_ & _ & Hexp).
  destruct (Hexp exports) as (Hlead & _ & Hlack & _).
  destruct (Hlack (ex_intro _ onINP eq_refl)) as (made & Hes & Hlen & _).
  exists made. split; [exact Hes|]. split; [exact Hlen|]. exact Hlead.
Defined.

(** ** Further properties of the form tracker *)

Section FormTrackerRuns.

Variable clock : nat -> Z.
Variable form_id : string.
Variable form_name : option string.

Local Abbreviation trackStart := (trackStart clock form_id form_name).
Local Abbreviation trackFieldFocus := (trackFieldFocus clock form_id form_name).
Local Abbreviation trackFieldBlur := (trackFieldBlur clock form_id form_name).
Local Abbreviation trackFieldError := (trackFieldError clock form_id form_name).
Local Abbreviation trackSubmit := (trackSubmit clock form_id form_name).
Local Abbreviation trackAbandon := (trackAbandon clock form_id form_name).
Local Abbreviation invoke := (invoke clock form_id form_name).
Local Abbreviation run := (run clock form_id form_name).

Lemma elapsed_since_reading (v : option Z) (r : Runtime) :
  elapsed_since clock v r =
    (fst (reading clock v (ticks r)),
     mkRuntime (session r) (snd (reading clock v (ticks r))) (emitted r)).
Proof.
  unfold elapsed_since, reading.
  destruct (truthy_number v); [reflexivity|]. now destruct r.
Qed.

Lemma reading_cases (v : option Z) (n : nat) :
  (reading clock v n = (None, n)) \/
  (exists t, v = Some t /\ t <> 0%Z /\ reading clock v n = (Some (clock n - t)%Z, S n)).
Proof.
  unfold reading. destruct v as [t|]; cbn [truthy_number]; [|left; reflexivity].
  destruct (Z.eqb_spec t 0); cbn [negb]; [left; reflexivity|].
  right. exists t. auto.
Qed.

Lemma truthy_number_some (v : option Z) :
  truthy_number v = true -> exists t, v = Some t /\ t <> 0%Z.
Proof.
  destruct v as [t|]; cbn [truthy_number]; [|discriminate].
  destruct (Z.eqb_spec t 0); [discriminate|]. eauto.
Qed.

(** Each method as one step on the runtime. *)

Lemma trackStart_run (r : Runtime) :
  trackStart r =
    (tt, mkRuntime (mkSession (Some (clock (ticks r))) (fieldStartTimes (session r)))
           (S (ticks r))
           (emitted r ++
            [mkFormEvent start form_id form_name None None None None None None None None])%list).
Proof. reflexivity. Qed.

Lemma trackFieldFocus_run (f : string) (ty : option string) (ix : option Z) (r : Runtime) :
  trackFieldFocus f ty ix r =
    (tt,
     if truthy_number (startTime (session r))
     then mkRuntime
            (mkSession (startTime (session r))
               (<[f := clock (ticks r)]> (fieldStartTimes (session r))))
            (S (S (ticks r)))
            (emitted r ++
             [mkFormEvent field_focus form_id form_name None (Some f) ty ix None
                (Some (clock (S (ticks r)) - with_default 0 (startTime (session r)))%Z)
                None None])%list
     else mkRuntime
            (mkSession (Some (clock (ticks r)))
               (<[f := clock (S (ticks r))]> (fieldStartTimes (session r))))
            (S (S (S (ticks r))))
            (emitted r ++
             [mkFormEvent start form_id form_name None None None None None None None None;
              mkFormEvent field_focus form_id form_name None (Some f) ty ix None
                (Some (clock (S (S (ticks r))) - clock (ticks r))%Z) None None])%list).
Proof.
  unfold Client.trackFieldFocus, bind, get_startTime.
  destruct (truthy_number (startTime (session r))); cbn; [reflexivity|].
  unfold call_trackFormEvent. cbn [session ticks emitted]. now rewrite <- app_assoc.
Qed.

Lemma trackFieldBlur_run (f : string) (ty : option string) (ix : option Z) (r : Runtime) :
  let a := reading clock (fieldStartTimes (session r) !! f) (ticks r) in
  let b := reading clock (startTime (session r)) (snd a) in
  trackFieldBlur f ty ix r =
    (tt, mkRuntime (session r) (snd b)
           (emitted r ++
            [mkFormEvent field_blur form_id form_name None (Some f) ty ix
               (fst a) (fst b) None None])%list).
Proof.
  intros a b. unfold Client.trackFieldBlur, bind, fieldStartTimes_get, get_startTime.
  rewrite elapsed_since_reading. fold a. cbn [session ticks emitted].
  rewrite elapsed_since_reading. reflexivity.
Qed.

Lemma trackFieldError_run (f msg : string) (ty : option string) (ix : option Z)
    (r : Runtime) :
  let b := reading clock (startTime (session r)) (ticks r) in
  trackFieldError f msg ty ix r =
    (tt, mkRuntime (session r) (snd b)
           (emitted r ++
            [mkFormEvent field_error form_id form_name None (Some f) ty ix None
               (fst b) (Some msg) None])%list).
Proof.
  intros b. unfold Client.trackFieldError, bind, get_startTime.
  rewrite elapsed_since_reading. reflexivity.
Qed.

Lemma trackSubmit_run (ok : bool) (r : Runtime) :
  let b := reading clock (startTime (session r)) (ticks r) in
  trackSubmit ok r =
    (tt, mkRuntime new_session (snd b)
           (emitted r ++
            [mkFormEvent submit form_id form_name None None None None None
               (fst b) None (Some ok)])%list).
Proof.
  intros b. unfold Client.trackSubmit, bind, get_startTime.
  rewrite elapsed_since_reading. reflexivity.
Qed.

Lemma trackAbandon_reading (r : Runtime) :
  let b := reading clock (startTime (session r)) (ticks r) in
  trackAbandon r =
    (tt, mkRuntime (session r) (snd b)
           (emitted r ++
            [mkFormEvent abandon form_id form_name None None None None None
               (fst b) None None])%list).
Proof.
  intros b. unfold Client.trackAbandon, bind, get_startTime.
  rewrite elapsed_since_reading. reflexivity.
Qed.

Lemma reading_positive (s : Session) (n : nat) :
  times_positive s ->
  reading clock (startTime s) n =
    (since_start (clock n) s, match startTime s with Some _ => S n | None => n end).
Proof.
  intros Hpos. pose proof (times_positive_truthy s Hpos) as Ht.
  unfold reading, since_start.
  destruct (startTime s) as [t|] eqn:E; [|reflexivity].
  rewrite (proj2 Ht) by eauto. reflexivity.
Qed.

(** What one call adds to the events. *)
Lemma invoke_emits (c : MethodCall) (r : Runtime) :
  exists es,
    emitted (snd (invoke c r)) = (emitted r ++ es)%list /\
    map eventType es = event_types c (truthy_number (startTime (session r))) /\
    Forall (of_form form_id form_name) es.
Proof.
  destruct c as [|f ty ix|f ty ix|f msg ty ix|ok|]; cbn [Client.invoke].
  - rewrite trackStart_run. cbn [snd emitted]. eexists. split; [reflexivity|].
    split; [reflexivity|]. repeat constructor.
  - rewrite trackFieldFocus_run. cbn [snd event_types].
    destruct (truthy_number (startTime (session r))); cbn [emitted];
      eexists; (split; [reflexivity|]); (split; [reflexivity|]); repeat constructor.
  - rewrite trackFieldBlur_run. cbn [snd emitted]. eexists. split; [reflexivity|].
    split; [reflexivity|]. repeat constructor.
  - rewrite trackFieldError_run. cbn [snd emitted]. eexists. split; [reflexivity|].
    split; [reflexivity|]. repeat constructor.
  - rewrite trackSubmit_run. cbn [snd emitted]. eexists. split; [reflexivity|].
    split; [reflexivity|]. repeat constructor.
  - rewrite trackAbandon_reading. cbn [snd emitted]. eexists. split; [reflexivity|].
    split; [reflexivity|]. repeat constructor.
Qed.

Lemma event_types_length (c : MethodCall) (started : bool) :
  1 <= length (event_types c started) <= 2.
Proof. destruct c, started; cbn; lia. Qed.

Lemma run_emits (cs : list MethodCall) (r : Runtime) :
  exists es,
    emitted (run cs r) = (emitted r ++ es)%list /\
    map eventType es = run_event_types clock form_id form_name cs r /\
    length cs <= length es <= 2 * length cs /\
    Forall (of_form form_id form_name) es.
Proof.
  revert r. induction cs as [|c cs IH]; intros r.
  - exists []. cbn. rewrite app_nil_r. repeat split; auto.
  - cbn [Client.run run_event_types].
    destruct (invoke_emits c r) as (es1 & H1 & Hk1 & Hf1).
    destruct (IH (snd (invoke c r))) as (es2 & H2 & Hk2 & Hl2 & Hf2).
    exists (es1 ++ es2)%list. rewrite H2, H1, <- app_assoc.
    split; [reflexivity|]. split; [now rewrite map_app, Hk1, Hk2|]. split.
    + pose proof (event_types_length c (truthy_number (startTime (session r)))) as Hl1.
      rewrite <- Hk1, length_map in Hl1.
      rewrite length_app. cbn [length]. lia.
    + apply Forall_app. auto.
Qed.

(** A field time in the session comes with a start time. *)
Lemma invoke_fields_imply_start (c : MethodCall) (r : Runtime) :
  ((exists f t, fieldStartTimes (session r) !! f = Some t) ->
   is_Some (startTime (session r))) ->
  (exists f t, fieldStartTimes (session (snd (invoke c r))) !! f = Some t) ->
  is_Some (startTime (session (snd (invoke c r)))).
Proof.
  intros Hinv.
  destruct c as [|f ty ix|f ty ix|f msg ty ix|ok|]; cbn [Client.invoke].
  - rewrite trackStart_session. cbn. eauto.
  - rewrite trackFieldFocus_session.
    destruct (truthy_number (startTime (session r))) eqn:E; cbn; intros _.
    + destruct (truthy_number_some _ E) as (t & -> & _). eauto.
    + eauto.
  - now rewrite trackFieldBlur_session.
  - now rewrite trackFieldError_session.
  - rewrite trackSubmit_session. cbn. intros (f & t & H).
    rewrite lookup_empty in H. discriminate H.
  - rewrite trackAbandon_reading. cbn [snd session]. exact Hinv.
Qed.

Lemma run_fields_imply_start (cs : list MethodCall) (r : Runtime) :
  ((exists f t, fieldStartTimes (session r) !! f = Some t) ->
   is_Some (startTime (session r))) ->
  (exists f t, fieldStartTimes (session (run cs r)) !! f = Some t) ->
  is_Some (startTime (session (run cs r))).
Proof.
  revert r. induction cs as [|c cs IH]; intros r Hinv; [exact Hinv|].
  cbn [Client.run]. apply IH. now apply invoke_fields_imply_start.
Qed.

Hypothesis clock_monotone : monotone clock.

Lemma reading_nonneg (v : option Z) (n m : nat) (d : Z) :
  (forall t, v = Some t -> exists i, i < n /\ t = clock i) ->
  n <= m ->
  fst (reading clock v m) = Some d -> (0 <= d)%Z.
Proof.
  intros Hv Hnm Hd.
  destruct (reading_cases v m) as [H | (t & Hvt & _ & H)]; rewrite H in Hd.
  - discriminate Hd.
  - injection Hd as <-. destruct (Hv t Hvt) as (i & Hi & ->).
    pose proof (clock_monotone i m ltac:(lia)). lia.
Qed.

Lemma reading_ticks (v : option Z) (n : nat) :
  n <= snd (reading clock v n) <= S n.
Proof. unfold reading. destruct (truthy_number v); cbn; lia. Qed.

Lemma times_read_weaken (s : Session) (n m : nat) (ev ev' : list FormEventData) :
  n <= m -> times_read clock (mkRuntime s n ev) -> times_read clock (mkRuntime s m ev').
Proof.
  intros Hnm [Hs Hf]. split; cbn [session ticks] in *.
  - intros t Ht. destruct (Hs t Ht) as (i & Hi & ->). exists i. split; [lia|reflexivity].
  - intros f t Ht. destruct (Hf f t Ht) as (i & Hi & ->). exists i. split; [lia|reflexivity].
Qed.

Lemma times_read_insert (m : gmap string Z) (st : option Z) (f : string)
    (i n : nat) (ev' : list FormEventData) :
  i < n ->
  (forall t, st = Some t -> exists j, j < n /\ t = clock j) ->
  (forall g t, m !! g = Some t -> exists j, j < n /\ t = clock j) ->
  times_read clock (mkRuntime (mkSession st (<[f := clock i]> m)) n ev').
Proof.
  intros Hi Hs Hm. split; cbn [session ticks startTime fieldStartTimes].
  - exact Hs.
  - intros g t. destruct (decide (f = g)) as [->|Hne].
    + rewrite lookup_insert_eq. intros [= <-]. eauto.
    + rewrite lookup_insert_ne by exact Hne. apply Hm.
Qed.

(** One call keeps the times in the session among the readings made, and
    reports no negative duration. *)
Lemma invoke_durations (c : MethodCall) (r : Runtime) :
  times_read clock r ->
  times_read clock (snd (invoke c r)) /\
  exists es,
    emitted (snd (invoke c r)) = (emitted r ++ es)%list /\
    Forall durations_nonneg es.
Proof.
  intros Hread. pose proof Hread as [Hs Hf].
  assert (Hnone : forall ty a b c' d f' g h i,
             durations_nonneg (mkFormEvent ty a b c' d f' g None None h i)).
  { intros. split; cbn; discriminate. }
  destruct r as [[st m] n ev]. cbn [session ticks startTime fieldStartTimes] in Hs, Hf.
  destruct c as [|f ty ix|f ty ix|f msg ty ix|ok|]; cbn [Client.invoke].
  - rewrite trackStart_run. cbn [snd session ticks emitted fieldStartTimes]. split.
    + split; cbn [session ticks startTime fieldStartTimes].
      * intros t [= <-]. exists n. split; [lia|reflexivity].
      * intros g t Ht. destruct (Hf g t Ht) as (i & Hi & ->). exists i. split; [lia|reflexivity].
    + eexists. split; [reflexivity|]. repeat constructor; cbn; discriminate.
  - rewrite trackFieldFocus_run. cbn [snd session ticks emitted startTime fieldStartTimes].
    destruct (truthy_number st) eqn:E.
    + destruct (truthy_number_some _ E) as (t0 & -> & _).
      destruct (Hs t0 eq_refl) as (i0 & Hi0 & ->). split.
      * apply (times_read_insert m (Some (clock i0)) f n (S (S n))); [lia| |].
        -- intros t [= <-]. exists i0. split; [lia|reflexivity].
        -- intros g t Ht. destruct (Hf g t Ht) as (j & Hj & ->).
           exists j. split; [lia|reflexivity].
      * eexists. split; [reflexivity|]. repeat constructor; cbn; try discriminate.
        intros d [= <-]. pose proof (clock_monotone i0 (S n) ltac:(lia)). lia.
    + split.
      * apply (times_read_insert m (Some (clock n)) f (S n) (S (S (S n)))); [lia| |].
        -- intros t [= <-]. exists n. split; [lia|reflexivity].
        -- intros g t Ht. destruct (Hf g t Ht) as (j & Hj & ->).
           exists j. split; [lia|reflexivity].
      * eexists. split; [reflexivity|]. repeat constructor; cbn; try discriminate.
        intros d [= <-]. pose proof (clock_monotone n (S (S n)) ltac:(lia)). lia.
  - rewrite trackFieldBlur_run. cbn [snd session ticks emitted startTime fieldStartTimes].
    pose proof (reading_ticks (m !! f) n) as Ha.
    pose proof (reading_ticks st (snd (reading clock (m !! f) n))) as Hb.
    split.
    + apply (times_read_weaken _ n _ ev); [lia|exact Hread].
    + eexists. split; [reflexivity|]. repeat constructor;
        cbn [timeOnField timeSinceStart]; intros d Hd.
      * apply (reading_nonneg (m !! f) n n d); [apply Hf|lia|exact Hd].
      * apply (reading_nonneg st n _ d Hs (proj1 Ha) Hd).
  - rewrite trackFieldError_run. cbn [snd session ticks emitted startTime fieldStartTimes].
    pose proof (reading_ticks st n) as Hb. split.
    + apply (times_read_weaken _ n _ ev); [lia|exact Hread].
    + eexists. split; [reflexivity|]. repeat constructor;
        cbn [timeOnField timeSinceStart]; intros d Hd; [discriminate Hd|].
      apply (reading_nonneg st n n d Hs (le_n n) Hd).
  - rewrite trackSubmit_run. cbn [snd session ticks emitted startTime fieldStartTimes].
    split.
    + split; cbn [session ticks startTime fieldStartTimes new_session].
      * discriminate.
      * intros g t Ht. rewrite lookup_empty in Ht. discriminate Ht.
    + eexists. split; [reflexivity|]. repeat constructor;
        cbn [timeOnField timeSinceStart]; intros d Hd; [discriminate Hd|].
      apply (reading_nonneg st n n d Hs (le_n n) Hd).
  - rewrite trackAbandon_reading. cbn [snd session ticks emitted startTime fieldStartTimes].
    pose proof (reading_ticks st n) as Hb. split.
    + apply (times_read_weaken _ n _ ev); [lia|exact Hread].
    + eexists. split; [reflexivity|]. repeat constructor;
        cbn [timeOnField timeSinceStart]; intros d Hd; [discriminate Hd|].
      apply (reading_nonneg st n n d Hs (le_n n) Hd).
Qed.

Lemma run_durations (cs : list MethodCall) (r : Runtime) :
  times_read clock r ->
  Forall durations_nonneg (emitted r) ->
  Forall durations_nonneg (emitted (run cs r)).
Proof.
  revert r. induction cs as [|c cs IH]; intros r Hread Hev; [exact Hev|].
  cbn [Client.run].
  destruct (invoke_durations c r Hread) as (Hread' & es & Hes & Hok).
  apply IH; [exact Hread'|]. rewrite Hes. apply Forall_app. auto.
Qed.

End FormTrackerRuns.

Lemma run_app (clock : nat -> Z) (form_id : string) (form_name : option string)
    (cs cs' : list MethodCall) (r : Runtime) :
  run clock form_id form_name (cs ++ cs') r =
  run clock form_id form_name cs' (run clock form_id form_name cs r).
Proof.
  revert r. induction cs as [|c cs IH]; intros r; [reflexivity|].
  cbn [app run]. apply IH.
Qed.

Lemma reading_some (clock : nat -> Z) (t : Z) (n : nat) :
  t <> 0%Z -> reading clock (Some t) n = (Some (clock n - t)%Z, S n).
Proof.
  intros Ht. unfold reading. cbn [truthy_number with_default].
  destruct (Z.eqb_spec t 0); [contradiction|reflexivity].
Qed.

Lemma example_clock_monotone : monotone example_clock.
Proof. intros i j Hij. unfold example_clock. lia. Qed.

(** X16.  From any state, a call emits exactly the events of its kind:
    [start] for [trackStart], [field_blur], [field_error], [submit] and
    [abandon] for their methods, and for [trackFieldFocus] the event
    [field_focus], after a [start] when the session has no start time that
    the code takes for one.  Every event carries the [formId] and [formName]
    given to [createFormTracker] and no [urlPath].  So the events of any
    calls on a new tracker are those of each call in turn, and later calls
    only add events after those already emitted. *)
Theorem tracker_events_belong_to_form (clock : nat -> Z) (form_id : string)
    (form_name : option string) :
  (forall (c : MethodCall) (r : Runtime),
      exists es,
        emitted (snd (invoke clock form_id form_name c r)) = (emitted r ++ es)%list /\
        map eventType es = event_types c (truthy_number (startTime (session r))) /\
        Forall (of_form form_id form_name) es) /\
  (forall cs : list MethodCall,
      let es := emitted (run clock form_id form_name cs new_runtime) in
      map eventType es = run_event_types clock form_id form_name cs new_runtime /\
      length cs <= length es <= 2 * length cs /\
      Forall (of_form form_id form_name) es /\
      forall cs', exists more,
        emitted (run clock form_id form_name (cs ++ cs') new_runtime) = (es ++ more)%list).
Proof.
  split; [apply invoke_emits|].
  intros cs es.
  destruct (run_emits clock form_id form_name cs new_runtime) as (es0 & H0 & Hk & Hl & Hf).
  cbn [emitted new_runtime app] in H0. fold es in H0. subst es0.
  split; [exact Hk|]. split; [exact Hl|]. split; [exact Hf|].
  intros cs'. rewrite run_app.
  destruct (run_emits clock form_id form_name cs'
              (run clock form_id form_name cs new_runtime)) as (more & Hm & _).
  exists more. exact Hm.
Qed.

(** X17.  With a clock that never runs backwards no event reports a
    negative [timeOnField] or [timeSinceStart], whatever calls are made on a
    new tracker. *)
Theorem tracker_durations_nonnegative (clock : nat -> Z) (form_id : string)
    (form_name : option string) (cs : list MethodCall) :
  monotone clock ->
  Forall durations_nonneg (emitted (run clock form_id form_name cs new_runtime)).
Proof.
  intros Hmono. apply (run_durations clock form_id form_name Hmono).
  - split; cbn.
    + discriminate.
    + intros f t H. rewrite lookup_empty in H. discriminate H.
  - constructor.
Qed.

Lemma tracker_durations_nonnegative_witness :
  Forall durations_nonneg
    (emitted (run example_clock "signup-form" None
                [call_trackFieldFocus "email" None None; call_trackStart;
                 call_trackFieldBlur "email" None None; call_trackSubmit true]
                new_runtime)).
Proof.
  apply (tracker_durations_nonnegative example_clock "signup-form" None).
  exact example_clock_monotone.
Defined.

(** X18.  On a session that has started, [trackFieldFocus] keeps the
    start time, emits [field_focus] alone, with the time since that start,
    and sets the field's focus time to a new reading, over any earlier one;
    [trackStart] instead replaces the start time with a new reading and
    emits [start] again, leaving the field times alone.  The clock is one
    that reads past the epoch. *)
Theorem focus_keeps_start_trackStart_replaces (clock : nat -> Z) (form_id : string)
    (form_name : option string) (r : Runtime) (t0 : Z)
    (f : string) (ty : option string) (ix : option Z) :
  after_epoch clock ->
  reachable clock form_id form_name r ->
  startTime (session r) = Some t0 ->
  let r1 := snd (trackFieldFocus clock form_id form_name f ty ix r) in
  let r2 := snd (trackStart clock form_id form_name r) in
  startTime (session r1) = Some t0 /\
  fieldStartTimes (session r1) = <[f := clock (ticks r)]> (fieldStartTimes (session r)) /\
  emitted r1 =
    (emitted r ++
     [mkFormEvent field_focus form_id form_name None (Some f) ty ix None
        (Some (clock (S (ticks r)) - t0)%Z) None None])%list /\
  startTime (session r2) = Some (clock (ticks r)) /\
  fieldStartTimes (session r2) = fieldStartTimes (session r) /\
  emitted r2 =
    (emitted r ++
     [mkFormEvent start form_id form_name None None None None None None None None])%list.
Proof.
  intros Hclock Hreach Hst r1 r2.
  pose proof (reachable_times_positive clock form_id form_name Hclock r Hreach) as Hpos.
  assert (Ht : truthy_number (startTime (session r)) = true).
  { apply (times_positive_truthy _ Hpos). rewrite Hst. eauto. }
  subst r1 r2. rewrite trackFieldFocus_run, trackStart_run, Ht. cbn [snd session emitted
    startTime fieldStartTimes]. rewrite Hst. cbn [with_default].
  repeat split.
Qed.

Lemma focus_keeps_start_trackStart_replaces_witness :
  let r := run example_clock "signup-form" None [call_trackStart] new_runtime in
  startTime (session (snd (trackFieldFocus example_clock "signup-form" None "email"
                             None None r))) = Some 1000%Z /\
  startTime (session (snd (trackStart example_clock "signup-form" None r))) = Some 1001%Z.
Proof.
  intros r.
  assert (Hreach : reachable example_clock "signup-form" None r).
  { exists [call_trackStart]. reflexivity. }
  destruct (focus_keeps_start_trackStart_replaces example_clock "signup-form" None r
              1000%Z "email" None None example_clock_after_epoch Hreach eq_refl)
    as (Hkeep & _ & _ & Hreplace & _).
  split; [exact Hkeep | exact Hreplace].
Defined.

(** X19.  In any state that calls on a new tracker lead to, a field with
    a focus time comes with a session start.  [trackFieldBlur] for such a
    field emits one [field_blur] event, with the time since the field's
    last focus and, from the next reading of the clock, the time since the
    start; it leaves the session as it was, focus time included.  The clock
    is one that reads past the epoch. *)
Theorem trackFieldBlur_focused (clock : nat -> Z) (form_id : string)
    (form_name : option string) (r : Runtime) (t : Z)
    (f : string) (ty : option string) (ix : option Z) :
  after_epoch clock ->
  reachable clock form_id form_name r ->
  fieldStartTimes (session r) !! f = Some t ->
  let r' := snd (trackFieldBlur clock form_id form_name f ty ix r) in
  exists t0,
    startTime (session r) = Some t0 /\
    session r' = session r /\
    emitted r' =
      (emitted r ++
       [mkFormEvent field_blur form_id form_name None (Some f) ty ix
          (Some (clock (ticks r) - t)%Z) (Some (clock (S (ticks r)) - t0)%Z)
          None None])%list.
Proof.
  intros Hclock Hreach Hf r'.
  pose proof (reachable_times_positive clock form_id form_name Hclock r Hreach) as Hpos.
  assert (Hstart : is_Some (startTime (session r))).
  { destruct Hreach as [cs ->].
    apply (run_fields_imply_start clock form_id form_name cs new_runtime).
    - cbn. intros (g & u & H). rewrite lookup_empty in H. discriminate H.
    - eauto. }
  destruct Hstart as [t0 Ht0]. exists t0. split; [exact Ht0|].
  subst r'. rewrite trackFieldBlur_run. cbn [snd session emitted].
  rewrite Hf, Ht0.
  rewrite (reading_some clock t (ticks r)) by (pose proof (proj2 Hpos f t Hf); lia).
  cbn [fst snd].
  rewrite (reading_some clock t0 (S (ticks r))) by (pose proof (proj1 Hpos t0 Ht0); lia).
  split; reflexivity.
Qed.

Lemma trackFieldBlur_focused_witness :
  let r := run example_clock "signup-form" None
             [call_trackFieldFocus "email" None None] new_runtime in
  exists t0,
    startTime (session r) = Some t0 /\
    emitted (snd (trackFieldBlur example_clock "signup-form" None "email" None None r)) =
      (emitted r ++
       [mkFormEvent field_blur "signup-form" None None (Some "email") None None
          (Some (example_clock 3 - 1001)%Z) (Some (example_clock 4 - t0)%Z)
          None None])%list.
Proof.
  intros r.
  assert (Hreach : reachable example_clock "signup-form" None r).
  { exists [call_trackFieldFocus "email" None None]. reflexivity. }
  assert (Hf : fieldStartTimes (session r) !! "email" = Some 1001%Z).
  { apply lookup_insert_eq. }
  destruct (trackFieldBlur_focused example_clock "signup-form" None r 1001%Z "email"
              None None example_clock_after_epoch Hreach Hf) as (t0 & Ht0 & _ & Hemit).
  exists t0. split; [exact Ht0 | exact Hemit].
Defined.

(** X20.  In any state that calls on a new tracker lead to,
    [trackFieldError] emits one [field_error] event with the field, the
    message and the time since the start (absent when there is none), and
    leaves the start time and the field times as they were.  The clock is
    one that reads past the epoch. *)
Theorem trackFieldError_keeps_session (clock : nat -> Z) (form_id : string)
    (form_name : option string) (r : Runtime)
    (f msg : string) (ty : option string) (ix : option Z) :
  after_epoch clock ->
  reachable clock form_id form_name r ->
  let r' := snd (trackFieldError clock form_id form_name f msg ty ix r) in
  session r' = session r /\
  emitted r' =
    (emitted r ++
     [mkFormEvent field_error form_id form_name None (Some f) ty ix None
        (since_start (clock (ticks r)) (session r)) (Some msg) None])%list.
Proof.
  intros Hclock Hreach r'.
  pose proof (reachable_times_positive clock form_id form_name Hclock r Hreach) as Hpos.
  subst r'. rewrite trackFieldError_run. cbn [snd session emitted].
  rewrite (reading_positive clock (session r) (ticks r) Hpos). split; reflexivity.
Qed.

Lemma trackFieldError_keeps_session_witness :
  let r := run example_clock "signup-form" None
             [call_trackFieldFocus "email" None None] new_runtime in
  session (snd (trackFieldError example_clock "signup-form" None "email" "required"
                  None None r)) = session r.
Proof.
  intros r.
  assert (Hreach : reachable example_clock "signup-form" None r).
  { exists [call_trackFieldFocus "email" None None]. reflexivity. }
  exact (proj1 (trackFieldError_keeps_session example_clock "signup-form" None r
                  "email" "required" None None example_clock_after_epoch Hreach)).
Defined.

(** X21.  In any state that calls on a new tracker lead to, [trackSubmit]
    emits one [submit] event with the success flag and the time since the
    start, taken before the reset; a [trackAbandon] right after it reports
    no time since start, and a [trackFieldBlur] no time on the field.  The
    clock is one that reads past the epoch. *)
Theorem trackSubmit_then_abandon (clock : nat -> Z) (form_id : string)
    (form_name : option string) (r : Runtime) (ok : bool)
    (f : string) (ty : option string) (ix : option Z) :
  after_epoch clock ->
  reachable clock form_id form_name r ->
  let submitted :=
    mkFormEvent submit form_id form_name None None None None None
      (since_start (clock (ticks r)) (session r)) None (Some ok) in
  let r1 := snd (trackSubmit clock form_id form_name ok r) in
  emitted r1 = (emitted r ++ [submitted])%list /\
  emitted (snd (trackAbandon clock form_id form_name r1)) =
    (emitted r ++
     [submitted;
      mkFormEvent abandon form_id form_name None None None None None None None None])%list /\
  emitted (snd (trackFieldBlur clock form_id form_name f ty ix r1)) =
    (emitted r ++
     [submitted;
      mkFormEvent field_blur form_id form_name None (Some f) ty ix None None
        None None])%list.
Proof.
  intros Hclock Hreach submitted r1.
  pose proof (reachable_times_positive clock form_id form_name Hclock r Hreach) as Hpos.
  assert (H1 : r1 = mkRuntime new_session
                      (match startTime (session r) with
                       | Some _ => S (ticks r)
                       | None => ticks r
                       end)
                      (emitted r ++ [submitted])%list).
  { subst r1. rewrite trackSubmit_run. cbn [snd].
    rewrite (reading_positive clock (session r) (ticks r) Hpos). reflexivity. }
  rewrite H1. cbn [emitted]. split; [reflexivity|]. split.
  - rewrite trackAbandon_reading. cbn. now rewrite <- app_assoc.
  - rewrite trackFieldBlur_run. cbn [snd session emitted new_session fieldStartTimes
      startTime ticks]. rewrite lookup_empty. cbn. now rewrite <- app_assoc.
Qed.

Lemma trackSubmit_then_abandon_witness :
  let r := run example_clock "signup-form" None [call_trackStart] new_runtime in
  emitted (snd (trackSubmit example_clock "signup-form" None true r)) =
    (emitted r ++
     [mkFormEvent submit "signup-form" None None None None None None (Some 1%Z) None
        (Some true)])%list.
Proof.
  intros r.
  assert (Hreach : reachable example_clock "signup-form" None r).
  { exists [call_trackStart]. reflexivity. }
  exact (proj1 (trackSubmit_then_abandon example_clock "signup-form" None r true
                  "email" None None example_clock_after_epoch Hreach)).
Defined.

(** X22.  Right after [trackFieldFocus], from any state, the focus time of
    the field is the reading of the clock made two readings ago, whether or
    not the call also started the session; a [trackFieldBlur] for the field
    that follows reports the time from that reading to its own, and a time
    since start.  The clock is one that reads past the epoch. *)
Theorem focus_then_blur (clock : nat -> Z) (form_id : string)
    (form_name : option string) (r : Runtime)
    (f : string) (ty ty' : option string) (ix ix' : option Z) :
  after_epoch clock ->
  let r1 := snd (trackFieldFocus clock form_id form_name f ty ix r) in
  let r2 := snd (trackFieldBlur clock form_id form_name f ty' ix' r1) in
  fieldStartTimes (session r1) !! f = Some (clock (ticks r1 - 2)) /\
  session r2 = session r1 /\
  exists e,
    emitted r2 = (emitted r1 ++ [e])%list /\
    eventType e = field_blur /\
    timeOnField e = Some (clock (ticks r1) - clock (ticks r1 - 2)%nat)%Z /\
    is_Some (timeSinceStart e).
Proof.
  intros Hclock r1 r2.
  assert (Hr1 : exists t0,
             t0 <> 0%Z /\
             startTime (session r1) = Some t0 /\
             fieldStartTimes (session r1) !! f = Some (clock (ticks r1 - 2))).
  { subst r1. rewrite trackFieldFocus_run. cbn [snd].
    destruct (truthy_number (startTime (session r))) eqn:E;
      cbn [session ticks startTime fieldStartTimes].
    - destruct (truthy_number_some _ E) as (t0 & Est & Hne).
      exists t0. split; [exact Hne|]. split; [exact Est|].
      rewrite lookup_insert_eq; repeat f_equal; lia.
    - exists (clock (ticks r)). split; [pose proof (Hclock (ticks r)); lia|].
      split; [reflexivity|].
      rewrite lookup_insert_eq; repeat f_equal; lia. }
  destruct Hr1 as (t0 & Ht0 & Hst & Hf).
  split; [exact Hf|].
  subst r2. rewrite trackFieldBlur_run. cbn [snd session emitted].
  split; [reflexivity|].
  eexists. split; [reflexivity|].
  cbn [eventType timeOnField timeSinceStart]. rewrite Hf, Hst.
  rewrite (reading_some clock _ (ticks r1))
    by (pose proof (Hclock (ticks r1 - 2)); lia).
  cbn [fst snd].
  rewrite (reading_some clock t0 (S (ticks r1)) Ht0). cbn [fst].
  split; [reflexivity|]. split; [reflexivity|]. eauto.
Qed.

Lemma focus_then_blur_witness :
  let r1 := snd (trackFieldFocus example_clock "signup-form" None "email" None None
                   new_runtime) in
  fieldStartTimes (session r1) !! "email" = Some 1001%Z /\
  exists e,
    emitted (snd (trackFieldBlur example_clock "signup-form" None "email" None None r1)) =
      (emitted r1 ++ [e])%list /\
    timeOnField e = Some 2%Z.
Proof.
  intros r1.
  destruct (focus_then_blur example_clock "signup-form" None new_runtime "email"
              None None None None example_clock_after_epoch)
    as (Hfocus & _ & e & Hemit & _ & Hon & _).
  split; [exact Hfocus|].
  exists e. split; [exact Hemit | exact Hon].
Defined.
